(** * Employee schedule: free/busy intervals of a working day

    A shallow embedding of [src/scheduler.py] (class [EmployeeSchedule])
    and the properties of its interval model.

    Conventions.
    - Python strings are modelled as [string], sequences of 8-bit
      characters read as the code points below 256; among these the
      decimal digits are 0 to 9. Python's [\d] and [int] also take the
      decimal digits of other scripts, which these strings cannot hold:
      where a statement says which strings are accepted or how they
      print, it is made for strings of ASCII characters ([ascii_only]).
    - A [datetime.time] produced by [_parse_time] always has [second = 0],
      [microsecond = 0] and no [tzinfo]; it is modelled by its [hour] and
      [minute] fields, compared lexicographically as Python does.
    - The dictionary [self.schedule] is a [gmap string ScheduleData]; the
      transient [days_by_id] dictionary, whose iteration order matters, is
      an insertion-ordered association list.
    - Exceptions are values of [exn]; a computation that may raise has type
      [result A]. *)

From stdpp Require Import gmap strings list sorting.
From Stdlib Require Import ZArith Lia Ascii.
From Stdlib Require OrdersTac.

Local Open Scope Z_scope.

(** ** Exceptions *)

(** Every constructor but the last two is a Python [ValueError]; they are
    told apart by where they are raised (and by their message). *)
Inductive exn : Type :=
  | FormatError        (* ValueError raised by datetime.strptime itself *)
  | InvalidDateFormat  (* ValueError "Invalid date format: ... Use 'YYYY-MM-DD'." *)
  | InvalidTimeFormat  (* ValueError "Invalid time format. Use 'HH:MM'." *)
  | InvalidRange       (* ValueError "Start time must be earlier than end time." *)
  | InvalidDuration    (* ValueError "Duration must be a positive number." *)
  | OverflowError      (* timedelta outside its range of days *)
  | KeyError.          (* subscript of a dictionary with a missing key *)

Definition is_ValueError (e : exn) : bool :=
  match e with
  | OverflowError | KeyError => false
  | _ => true
  end.

Inductive result (A : Type) : Type :=
  | Ok (a : A)
  | Raise (e : exn).
Arguments Ok {A} a.
Arguments Raise {A} e.

#[global] Instance result_ret : MRet result := λ A a, Ok a.
#[global] Instance result_bind : MBind result := λ A B f c,
  match c with
  | Ok a => f a
  | Raise e => Raise e
  end.

(** [try: c except ValueError: raise e'] *)
Definition except_ValueError {A} (c : result A) (e' : exn) : result A :=
  match c with
  | Ok a => Ok a
  | Raise e => if is_ValueError e then Raise e' else Raise e
  end.

(** ** [datetime.strptime] for the two formats the program uses

    [_strptime] turns a format into a regular expression, matches it at the
    start of the string ([re.match], with backtracking between the
    alternatives of a directive), and rejects the string when some of it
    is left over. *)
Module Strptime.

Inductive cclass : Type :=
  | Digit                      (* \d *)
  | Range (lo hi : ascii)      (* [lo-hi] *)
  | Lit (c : ascii).

Inductive item : Type :=
  | Group (alts : list (list cclass))   (* (?P<x>a1|a2|...) *)
  | Char (c : ascii).

Definition in_range (lo hi c : ascii) : bool :=
  (N_of_ascii lo <=? N_of_ascii c)%N && (N_of_ascii c <=? N_of_ascii hi)%N.

Definition is_digit (c : ascii) : bool := in_range "0" "9" c.

Definition in_class (k : cclass) (c : ascii) : bool :=
  match k with
  | Digit => is_digit c
  | Range lo hi => in_range lo hi c
  | Lit c' => bool_decide (c = c')
  end.

(** One alternative: a fixed sequence of character classes. Returns the
    matched text and the rest of the input. *)
Fixpoint match_alt (a : list cclass) (s : list ascii)
  : option (list ascii * list ascii) :=
  match a with
  | [] => Some ([], s)
  | k :: a' =>
      match s with
      | c :: s' =>
          if in_class k c then
            match match_alt a' s' with
            | Some (m, r) => Some (c :: m, r)
            | None => None
            end
          else None
      | [] => None
      end
  end.

Section first_alt.
Context {B : Type} (continue : list ascii → list ascii → option B).

(** The first alternative, in order, after which the rest of the
    pattern still matches. *)
Fixpoint first_alt (alts : list (list cclass)) (s : list ascii) : option B :=
  match alts with
  | [] => None
  | a :: alts' =>
      match match_alt a s with
      | Some (m, r) =>
          match continue m r with
          | Some b => Some b
          | None => first_alt alts' s
          end
      | None => first_alt alts' s
      end
  end.
End first_alt.

(** Returns the text of every group and the unmatched rest. *)
Fixpoint match_items (p : list item) (s : list ascii)
  : option (list (list ascii) * list ascii) :=
  match p with
  | [] => Some ([], s)
  | Char c :: p' =>
      match s with
      | c' :: s' => if bool_decide (c' = c) then match_items p' s' else None
      | [] => None
      end
  | Group alts :: p' =>
      first_alt
        (λ m r, match match_items p' r with
                | Some (ms, r') => Some (m :: ms, r')
                | None => None
                end)
        alts s
  end.

(** [found = format_regex.match(data_string)]; a failed match and
    [len(data_string) != found.end()] both raise [ValueError]. *)
Definition full_match (p : list item) (s : string) : option (list (list ascii)) :=
  match match_items p (Stdlib.Strings.String.list_ascii_of_string s) with
  | Some (ms, []) => Some ms
  | _ => None
  end.

(** [int(text)] on the text of a group: digits, after an optional blank
    (the [%d] directive takes one). *)
Definition digit_value (c : ascii) : Z := Z.of_N (N_of_ascii c) - 48.

Definition int (m : list ascii) : Z :=
  fold_left (λ acc c, if is_digit c then 10 * acc + digit_value c else acc) m 0.

Definition d_ : cclass := Digit.
Definition r_ (lo hi : ascii) : cclass := Range lo hi.

Definition dir_H : item :=
  Group [ [Lit "2"; r_ "0" "3"]; [r_ "0" "1"; d_]; [d_] ]%char.
Definition dir_M : item :=
  Group [ [r_ "0" "5"; d_]; [d_] ]%char.
Definition dir_Y : item :=
  Group [ [d_; d_; d_; d_] ].
Definition dir_m : item :=
  Group [ [Lit "1"; r_ "0" "2"]; [Lit "0"; r_ "1" "9"]; [r_ "1" "9"] ]%char.
Definition dir_d : item :=
  Group [ [Lit "3"; r_ "0" "1"]; [r_ "1" "2"; d_]; [Lit "0"; r_ "1" "9"];
          [r_ "1" "9"]; [Lit " "; r_ "1" "9"] ]%char.

(** "%H:%M" *)
Definition fmt_HM : list item := [dir_H; Char ":"; dir_M]%char.
(** "%Y-%m-%d" *)
Definition fmt_Ymd : list item := [dir_Y; Char "-"; dir_m; Char "-"; dir_d]%char.

Definition is_leap (y : Z) : bool :=
  (y mod 4 =? 0) && (negb (y mod 100 =? 0) || (y mod 400 =? 0)).

Definition days_in_month (y m : Z) : Z :=
  if m =? 2 then (if is_leap y then 29 else 28)
  else if (m =? 4) || (m =? 6) || (m =? 9) || (m =? 11) then 30
  else 31.

(** [datetime.date(y, m, d)] raises [ValueError] outside these bounds. *)
Definition date_ok (y m d : Z) : bool :=
  (1 <=? y) && (y <=? 9999) && (1 <=? m) && (m <=? 12) &&
  (1 <=? d) && (d <=? days_in_month y m).

(** [datetime.strptime(s, "%H:%M")]: the hour and the minute. *)
Definition strptime_HM (s : string) : option (Z * Z) :=
  match full_match fmt_HM s with
  | Some [h; m] => Some (int h, int m)
  | _ => None
  end.

(** [datetime.strptime(s, "%Y-%m-%d")]: year, month and day of a date
    that exists. *)
Definition strptime_Ymd (s : string) : option (Z * Z * Z) :=
  match full_match fmt_Ymd s with
  | Some [y; m; d] =>
      if date_ok (int y) (int m) (int d) then Some (int y, int m, int d) else None
  | _ => None
  end.

End Strptime.

(** ** [datetime.time], [datetime.date], [datetime.datetime], [timedelta] *)

Record time : Type := mk_time { hour : Z; minute : Z }.

#[global] Instance time_eq_dec : EqDecision time.
Proof. solve_decision. Defined.

(** The values the constructor of [datetime.time] accepts. *)
Definition valid_time (t : time) : Prop :=
  0 ≤ hour t < 24 ∧ 0 ≤ minute t < 60.

(** [time._cmp]: the tuples (hour, minute, ...) are compared. *)
Definition time_cmp (a b : time) : comparison :=
  match hour a ?= hour b with
  | Eq => minute a ?= minute b
  | c => c
  end.

Definition time_lt (a b : time) : Prop := time_cmp a b = Lt.   (* a < b  *)
Definition time_le (a b : time) : Prop := time_cmp a b ≠ Gt.   (* a <= b *)
Definition time_ge (a b : time) : Prop := time_cmp a b ≠ Lt.   (* a >= b *)

#[global] Instance time_lt_dec a b : Decision (time_lt a b).
Proof. unfold time_lt. apply _. Defined.
#[global] Instance time_le_dec a b : Decision (time_le a b).
Proof. unfold time_le. apply _. Defined.
#[global] Instance time_ge_dec a b : Decision (time_ge a b).
Proof. unfold time_ge. apply _. Defined.

(** The builtins [max(a, b)] and [min(a, b)]: the second argument is taken
    only when it is strictly larger, respectively strictly smaller. *)
Definition time_max (a b : time) : time := if decide (time_lt a b) then b else a.
Definition time_min (a b : time) : time := if decide (time_lt b a) then b else a.

(** Minutes since midnight. *)
Definition to_minutes (t : time) : Z := hour t * 60 + minute t.

Record date : Type := mk_date { year : Z; month : Z; day : Z }.

Definition days_before_year (y : Z) : Z :=
  (y - 1) * 365 + (y - 1) / 4 - (y - 1) / 100 + (y - 1) / 400.

Definition days_before_month (y m : Z) : Z :=
  foldr Z.add 0 (Strptime.days_in_month y <$> seqZ 1 (m - 1)).

(** [date.toordinal()]: 1 for January 1 of year 1. *)
Definition toordinal (d : date) : Z :=
  days_before_year (year d) + days_before_month (year d) (month d) + day d.

Record datetime : Type :=
  mk_datetime { dt_date : date; dt_time : time }.

(** [datetime.combine(d, t)] *)
Definition combine (d : date) (t : time) : datetime := mk_datetime d t.

Record timedelta : Type :=
  mk_timedelta { td_days : Z; td_seconds : Z; td_microseconds : Z }.

(** The constructor [timedelta(days, seconds)]: seconds are carried into
    days, and more than 999999999 days either way is an [OverflowError]. *)
Definition timedelta_new (days seconds : Z) : result timedelta :=
  let d := days + seconds / 86400 in
  let s := seconds mod 86400 in
  if decide (999999999 < Z.abs d) then Raise OverflowError
  else Ok (mk_timedelta d s 0).

(** [timedelta(minutes=n)] *)
Definition timedelta_minutes (n : Z) : result timedelta :=
  timedelta_new 0 (n * 60).

(** [datetime.__sub__] on two naive datetimes (seconds and microseconds
    of both are zero). *)
Definition datetime_sub (a b : datetime) : result timedelta :=
  let days1 := toordinal (dt_date a) in
  let days2 := toordinal (dt_date b) in
  let secs1 := minute (dt_time a) * 60 + hour (dt_time a) * 3600 in
  let secs2 := minute (dt_time b) * 60 + hour (dt_time b) * 3600 in
  timedelta_new (days1 - days2) (secs1 - secs2).

(** [timedelta._cmp]: the tuples (days, seconds, microseconds). *)
Definition timedelta_cmp (a b : timedelta) : comparison :=
  match td_days a ?= td_days b with
  | Eq => match td_seconds a ?= td_seconds b with
          | Eq => td_microseconds a ?= td_microseconds b
          | c => c
          end
  | c => c
  end.

Definition timedelta_ge (a b : timedelta) : Prop := timedelta_cmp a b ≠ Lt.

#[global] Instance timedelta_ge_dec a b : Decision (timedelta_ge a b).
Proof. unfold timedelta_ge. apply _. Defined.


(** ** Insertion-ordered dictionaries *)

Section odict.
Context {K V : Type} `{EqDecision K}.

Definition odict : Type := list (K * V).

(** [d.get(k)] *)
Fixpoint od_get (k : K) (d : odict) : option V :=
  match d with
  | [] => None
  | (k', v) :: d' => if decide (k' = k) then Some v else od_get k d'
  end.

(** [k in d] *)
Definition od_mem (k : K) (d : odict) : bool :=
  match od_get k d with Some _ => true | None => false end.

(** [d[k] = v]: a present key keeps its place, a new one goes last. *)
Fixpoint od_set (k : K) (v : V) (d : odict) : odict :=
  match d with
  | [] => [(k, v)]
  | (k', v') :: d' =>
      if decide (k' = k) then (k', v) :: d' else (k', v') :: od_set k v d'
  end.

(** [d[k]] *)
Definition od_sub (k : K) (d : odict) : result V :=
  match od_get k d with
  | Some v => Ok v
  | None => Raise KeyError
  end.
End odict.
Arguments odict K V : clear implicits.

(** A [for] loop whose body may raise. *)
Fixpoint for_each {A S : Type} (body : S → A → result S) (l : list A) (s : S)
  : result S :=
  match l with
  | [] => Ok s
  | x :: l' => s' ← body s x; for_each body l' s'
  end.

(** ** The schedule model *)

Definition TimeTuple : Type := time * time.

Record ScheduleData : Type := mk_ScheduleData {
  work_hours : TimeTuple;
  busy_slots : list TimeTuple
}.

(** The payload of the source: [data["days"]] and [data["timeslots"]]
    (an absent collection is the empty list). *)
Record DayRecord : Type := mk_DayRecord {
  d_id : Z; d_date : string; d_start : string; d_end : string
}.

Record SlotRecord : Type := mk_SlotRecord {
  s_id : Z; s_day_id : Z; s_start : string; s_end : string
}.

Record Data : Type := mk_Data {
  days : list DayRecord;
  timeslots : list SlotRecord
}.

(** [list.sort(key=lambda x: x[0])]: a stable sort on the start time. *)
Fixpoint insert_by_start (x : TimeTuple) (l : list TimeTuple) : list TimeTuple :=
  match l with
  | [] => [x]
  | y :: l' =>
      if decide (time_lt y.1 x.1) then y :: insert_by_start x l' else x :: y :: l'
  end.

Definition sort_by_start (l : list TimeTuple) : list TimeTuple :=
  foldr insert_by_start [] l.

Definition _parse_time (time_str : string) : result time :=
  match Strptime.strptime_HM time_str with
  | Some (h, m) => Ok (mk_time h m)
  | None => Raise FormatError
  end.

(** [datetime.strptime(date_str, "%Y-%m-%d")] *)
Definition strptime_date (date_str : string) : result date :=
  match Strptime.strptime_Ymd date_str with
  | Some (y, m, d) => Ok (mk_date y m d)
  | None => Raise FormatError
  end.

Definition days_by_id_of (ds : list DayRecord) : odict Z DayRecord :=
  fold_left (λ acc day_info, od_set (d_id day_info) day_info acc) ds [].

Definition add_day (processed_schedule : gmap string ScheduleData)
    (entry : Z * DayRecord) : result (gmap string ScheduleData) :=
  let day_info := entry.2 in
  let date_str := d_date day_info in
  work_start ← _parse_time (d_start day_info);
  work_end ← _parse_time (d_end day_info);
  mret (<[date_str := mk_ScheduleData (work_start, work_end) []]> processed_schedule).

Definition add_slot (days_by_id : odict Z DayRecord)
    (processed_schedule : gmap string ScheduleData) (slot : SlotRecord)
  : result (gmap string ScheduleData) :=
  let day_id := s_day_id slot in
  match od_get day_id days_by_id with
  | None => mret processed_schedule
  | Some day_info =>
      let date_str := d_date day_info in
      busy_start ← _parse_time (s_start slot);
      busy_end ← _parse_time (s_end slot);
      match processed_schedule !! date_str with
      | None => Raise KeyError
      | Some sd =>
          mret (<[date_str := mk_ScheduleData (work_hours sd)
                                (busy_slots sd ++ [(busy_start, busy_end)])]>
                  processed_schedule)
      end
  end.

Definition sort_day (sd : ScheduleData) : ScheduleData :=
  mk_ScheduleData (work_hours sd) (sort_by_start (busy_slots sd)).

(** [_fetch_and_process_data], from the decoded payload on. *)
Definition _fetch_and_process_data (data : Data) : result (gmap string ScheduleData) :=
  let days_by_id := days_by_id_of (days data) in
  processed_schedule ← for_each add_day days_by_id ∅;
  processed_schedule ←
    for_each (add_slot days_by_id) (timeslots data) processed_schedule;
  mret (fmap (M:=gmap string) sort_day processed_schedule).

(** ** The queries *)

Section queries.
Variable self : gmap string ScheduleData.

Definition _get_day_schedule (date_str : string) : result (option ScheduleData) :=
  _ ← except_ValueError (strptime_date date_str) InvalidDateFormat;
  mret (self !! date_str).

(** A [ScheduleData] dictionary has two keys and is never falsy, so
    [not day_schedule] holds for [None] only. *)
Definition get_busy_slots (date_str : string) : result (list TimeTuple) :=
  day_schedule ← _get_day_schedule date_str;
  match day_schedule with
  | None => mret []
  | Some sd => mret (busy_slots sd)
  end.

Definition sweep_step (st : time * list TimeTuple) (b : TimeTuple)
  : time * list TimeTuple :=
  let '(current_time, free_slots) := st in
  let '(busy_start, busy_end) := b in
  let free_slots :=
    if decide (time_lt current_time busy_start)
    then free_slots ++ [(current_time, busy_start)] else free_slots in
  (time_max current_time busy_end, free_slots).

Definition free_slots_of (sd : ScheduleData) : list TimeTuple :=
  let '(work_start, work_end) := work_hours sd in
  let '(current_time, free_slots) :=
    fold_left sweep_step (busy_slots sd) (work_start, []) in
  if decide (time_lt current_time work_end)
  then free_slots ++ [(current_time, work_end)] else free_slots.

Definition get_free_slots (date_str : string) : result (list TimeTuple) :=
  day_schedule ← _get_day_schedule date_str;
  match day_schedule with
  | None => mret []
  | Some sd => mret (free_slots_of sd)
  end.

(** The loop over the busy slots of [is_slot_available]: [false] at the
    first overlap, [true] when the loop runs out. *)
Fixpoint no_busy_overlap (check_start check_end : time) (busy : list TimeTuple)
  : bool :=
  match busy with
  | [] => true
  | (busy_start, busy_end) :: rest =>
      if decide (time_lt (time_max check_start busy_start)
                         (time_min check_end busy_end))
      then false
      else no_busy_overlap check_start check_end rest
  end.

Definition is_slot_available (date_str start_str end_str : string) : result bool :=
  '(check_start, check_end) ←
     except_ValueError
       (check_start ← _parse_time start_str;
        check_end ← _parse_time end_str;
        mret (check_start, check_end))
       InvalidTimeFormat;
  if decide (time_ge check_start check_end) then Raise InvalidRange else
  day_schedule ← _get_day_schedule date_str;
  match day_schedule with
  | None => mret false
  | Some sd =>
      let '(work_start, work_end) := work_hours sd in
      if negb (bool_decide (time_le work_start check_start) &&
               bool_decide (time_le check_end work_end))
      then mret false
      else mret (no_busy_overlap check_start check_end (busy_slots sd))
  end.

Definition dummy_date : date := mk_date 2000 1 1.

(** The body of the inner loop of [find_available_slots_for_duration]. *)
Definition keep_if_long (required_duration : timedelta) (date_str : string)
    (suitable_slots : odict string (list TimeTuple)) (slot : TimeTuple)
  : result (odict string (list TimeTuple)) :=
  let '(free_start, free_end) := slot in
  free_duration ← datetime_sub (combine dummy_date free_end)
                               (combine dummy_date free_start);
  if decide (timedelta_ge free_duration required_duration) then
    let suitable_slots :=
      if od_mem date_str suitable_slots then suitable_slots
      else od_set date_str [] suitable_slots in
    l ← od_sub date_str suitable_slots;
    mret (od_set date_str (l ++ [(free_start, free_end)]) suitable_slots)
  else mret suitable_slots.

(** [sorted(self.schedule.keys())] *)
Definition sorted_keys : list string :=
  merge_sort String.le (map_to_list self).*1.

Definition find_available_slots_for_duration (duration_minutes : Z)
  : result (odict string (list TimeTuple)) :=
  if decide (duration_minutes ≤ 0) then Raise InvalidDuration else
  required_duration ← timedelta_minutes duration_minutes;
  for_each
    (λ suitable_slots date_str,
       free_slots_on_day ← get_free_slots date_str;
       for_each (keep_if_long required_duration date_str)
                free_slots_on_day suitable_slots)
    sorted_keys [].

End queries.

(** ** Formatting of clock times

    The demonstration at the end of the module prints every slot with
    [strftime('%H:%M')]: hour and minute, each as two decimal digits. *)

Definition digit_char (n : Z) : ascii := ascii_of_N (Z.to_N (48 + n)).

Definition two_digits (n : Z) : list ascii :=
  [digit_char (n / 10); digit_char (n mod 10)].

Definition strftime_HM (t : time) : string :=
  Stdlib.Strings.String.string_of_list_ascii
    (two_digits (hour t) ++ ":"%char :: two_digits (minute t)).

#[global] Instance exn_eq_dec : EqDecision exn.
Proof. solve_decision. Defined.

#[global] Instance result_eq_dec {A} `{EqDecision A} : EqDecision (result A).
Proof. solve_decision. Defined.

(** * Notions of the specification *)

(** The sweep in the words of the specification: from [cursor], each busy
    interval [(bStart, bEnd)] in order emits [(cursor, bStart)] exactly
    when [cursor < bStart] and moves the cursor to [max(cursor, bEnd)];
    at the end [(cursor, workEnd)] is emitted exactly when
    [cursor < workEnd]. *)
Fixpoint sweep (cursor : time) (busy : list TimeTuple) (workEnd : time)
  : list TimeTuple :=
  match busy with
  | [] => if decide (time_lt cursor workEnd) then [(cursor, workEnd)] else []
  | (bStart, bEnd) :: rest =>
      (if decide (time_lt cursor bStart) then [(cursor, bStart)] else [])
      ++ sweep (time_max cursor bEnd) rest workEnd
  end.

Definition well_formed_date (date_str : string) : bool :=
  match Strptime.strptime_Ymd date_str with Some _ => true | None => false end.

(** The open-interval overlap test of [is_slot_available]. *)
Definition overlaps (a b : TimeTuple) : Prop :=
  time_lt (time_max a.1 b.1) (time_min a.2 b.2).

#[global] Instance overlaps_dec a b : Decision (overlaps a b).
Proof. unfold overlaps. apply _. Defined.

(** No interval of the list overlaps a later one. *)
Definition pairwise_disjoint (l : list TimeTuple) : Prop :=
  StronglySorted (λ a b, ¬ overlaps a b) l.

Definition sorted_by_start (l : list TimeTuple) : Prop :=
  StronglySorted (λ a b, time_le a.1 b.1) l.

(** A slot whose end is not before its start. *)
Definition proper (b : TimeTuple) : Prop := time_le b.1 b.2.

(** The span of a slot by direct subtraction of clock times, in minutes. *)
Definition span_minutes (s : TimeTuple) : Z :=
  (hour s.2 * 60 + minute s.2) - (hour s.1 * 60 + minute s.1).

(** The largest [n] for which [timedelta(minutes=n)] exists. *)
Definition max_timedelta_minutes : Z := 1439999999999.

Definition total_seconds (d : timedelta) : Z := td_days d * 86400 + td_seconds d.

(** Both ends of the slot are values of [datetime.time]. *)
Definition valid_slot (s : TimeTuple) : Prop := valid_time s.1 ∧ valid_time s.2.

(** The time string is accepted by [strptime] for "%H:%M". *)
Definition parses (time_str : string) : bool :=
  match Strptime.strptime_HM time_str with Some _ => true | None => false end.

Definition day_parses (day_info : DayRecord) : bool :=
  parses (d_start day_info) && parses (d_end day_info).

Definition slot_parses (slot : SlotRecord) : bool :=
  parses (s_start slot) && parses (s_end slot).

(** A timeslot that does not stop the ingestion: its day identifier is
    unknown, or its two times parse. *)
Definition slot_accepted (days_by_id : odict Z DayRecord) (slot : SlotRecord)
  : bool :=
  negb (od_mem (s_day_id slot) days_by_id) || slot_parses slot.

Definition valid_day (sd : ScheduleData) : Prop :=
  valid_slot (work_hours sd) ∧ Forall valid_slot (busy_slots sd).

Definition valid_model (self : gmap string ScheduleData) : Prop :=
  ∀ date_str sd, self !! date_str = Some sd → valid_day sd.

(** What the second loop of the ingestion relies on and keeps. *)
Definition slots_invariant (days_by_id : odict Z DayRecord)
    (p : gmap string ScheduleData) : Prop :=
  valid_model p ∧ ∀ e, e ∈ days_by_id → is_Some (p !! d_date e.2).

Definition long_enough (n : Z) (s : TimeTuple) : Prop := n ≤ span_minutes s.

#[global] Instance long_enough_dec n s : Decision (long_enough n s).
Proof. unfold long_enough. apply _. Defined.

(** What one date contributes to the result: nothing, or one entry. *)
Definition entry (date_str : string) (l : list TimeTuple)
  : odict string (list TimeTuple) :=
  match l with
  | [] => []
  | _ => [(date_str, l)]
  end.

(** The free slots of a key of the model, none for another string. *)
Definition free_of (self : gmap string ScheduleData) (date_str : string)
  : list TimeTuple :=
  match self !! date_str with
  | Some sd => free_slots_of sd
  | None => []
  end.

(** The result of the search over the keys [keys], for a duration of [n]
    minutes. *)
Definition found (self : gmap string ScheduleData) (n : Z) (keys : list string)
  : odict string (list TimeTuple) :=
  flat_map (λ k, entry k (filter (long_enough n) (free_of self k))) keys.

(** The instant [t] lies in the half-open interval [s]. *)
Definition covers (t : time) (s : TimeTuple) : Prop := time_le s.1 t ∧ time_lt t s.2.

#[global] Instance covers_dec t s : Decision (covers t s).
Proof. unfold covers. apply _. Defined.

(** The number of intervals of [l] in which [t] lies. *)
Definition coverage (t : time) (l : list TimeTuple) : nat :=
  length (filter (covers t) l).

(** The intervals of [l] tile [work]: every instant of [work] lies in
    exactly one of them, and every other instant in none. *)
Definition tiles (work : TimeTuple) (l : list TimeTuple) : Prop :=
  ∀ t, coverage t l = if decide (covers t work) then 1%nat else 0%nat.

(** A busy slot that is an interval within the working hours. *)
Definition within (work b : TimeTuple) : Prop :=
  time_le work.1 b.1 ∧ time_le b.1 b.2 ∧ time_le b.2 work.2.

(** ** What ingestion stores

    The two time strings of a record, parsed. *)
Definition parsed (start_str end_str : string) : option TimeTuple :=
  match Strptime.strptime_HM start_str, Strptime.strptime_HM end_str with
  | Some (h1, m1), Some (h2, m2) => Some (mk_time h1 m1, mk_time h2 m2)
  | _, _ => None
  end.

(** The date a timeslot belongs to: that of the day record its [day_id]
    names, if any. *)
Definition slot_date (days_by_id : odict Z DayRecord) (slot : SlotRecord)
  : option string :=
  d_date <$> od_get (s_day_id slot) days_by_id.

(** The timeslots of the date [date_str], parsed, in the order of the
    payload. *)
Definition slots_of (days_by_id : odict Z DayRecord) (date_str : string)
    (ts : list SlotRecord) : list TimeTuple :=
  omap (λ slot, if decide (slot_date days_by_id slot = Some date_str)
                then parsed (s_start slot) (s_end slot) else None) ts.

(** The working hours of the date [date_str]: those of the last retained
    day record with that date. *)
Definition hours_of (days_by_id : odict Z DayRecord) (date_str : string)
  : option TimeTuple :=
  last (omap (λ e : Z * DayRecord,
                if decide (d_date e.2 = date_str)
                then parsed (d_start e.2) (d_end e.2) else None) days_by_id).

(** A busy slot that is not empty. *)
Definition nonempty (b : TimeTuple) : Prop := time_lt b.1 b.2.

(** The request [(s, e)] lies within the slot [f]. *)
Definition inside (s e : time) (f : TimeTuple) : Prop :=
  time_le f.1 s ∧ time_le e f.2.

(** ** The search by direct subtraction of clock times

    [find_available_slots_for_duration] as the specification asks to
    reimplement it: the span of a free slot is [span_minutes], the direct
    subtraction of the clock times; no date and no [timedelta] is
    involved. *)
Definition keep_if_long_direct (duration_minutes : Z) (date_str : string)
    (suitable_slots : odict string (list TimeTuple)) (slot : TimeTuple)
  : result (odict string (list TimeTuple)) :=
  if decide (duration_minutes ≤ span_minutes slot) then
    let suitable_slots :=
      if od_mem date_str suitable_slots then suitable_slots
      else od_set date_str [] suitable_slots in
    l ← od_sub date_str suitable_slots;
    mret (od_set date_str (l ++ [slot]) suitable_slots)
  else mret suitable_slots.

Definition find_by_clock_subtraction (self : gmap string ScheduleData)
    (duration_minutes : Z) : result (odict string (list TimeTuple)) :=
  if decide (duration_minutes ≤ 0) then Raise InvalidDuration else
  for_each
    (λ suitable_slots date_str,
       free_slots_on_day ← get_free_slots self date_str;
       for_each (keep_if_long_direct duration_minutes date_str)
                free_slots_on_day suitable_slots)
    (sorted_keys self) [].

(** What is left of an entry of a search result when [n] minutes are
    asked for. *)
Definition restrict (n : Z) (e : string * list TimeTuple)
  : odict string (list TimeTuple) :=
  entry e.1 (filter (long_enough n) e.2).

(** ** Date strings *)

Definition chars (s : string) : list ascii :=
  Stdlib.Strings.String.list_ascii_of_string s.

(** Every character of the string is an ASCII character. *)
Definition ascii_only (s : string) : bool :=
  forallb (λ c, (N_of_ascii c <? 128)%N) (chars s).

(** The fields of a text, between the separators [sep]. *)
Fixpoint split_at (sep : ascii) (l : list ascii) : list (list ascii) :=
  match l with
  | [] => [[]]
  | c :: l' =>
      if bool_decide (c = sep) then [] :: split_at sep l'
      else match split_at sep l' with
           | f :: fs => (c :: f) :: fs
           | [] => [[c]]
           end
  end.

Definition ascii_digit (c : ascii) : bool :=
  (48 <=? N_of_ascii c)%N && (N_of_ascii c <=? 57)%N.

(** The number that a text of digits writes. *)
Definition decimal (text : list ascii) : Z :=
  fold_left (λ acc c, 10 * acc + (Z.of_N (N_of_ascii c) - 48)) text 0.

(** YYYY: a year in four digits. *)
Definition year_text (text : list ascii) : option Z :=
  if bool_decide (length text = 4%nat) && forallb ascii_digit text
  then Some (decimal text) else None.

(** The ways of writing the numbers of a month or of a day, each with the
    number written: in two digits (MM, DD); as they are, for the numbers
    below ten; and with a blank in place of the leading zero. *)
Definition padded (lo hi : Z) : list (list ascii * Z) :=
  (λ n, (two_digits n, n)) <$> seqZ lo (hi + 1 - lo).

Definition unpadded : list (list ascii * Z) :=
  (λ n, ([digit_char n], n)) <$> seqZ 1 9.

Definition blank_padded : list (list ascii * Z) :=
  (λ n, ([" "%char; digit_char n], n)) <$> seqZ 1 9.

(** [strict]: MM and DD only. *)
Definition month_texts (strict : bool) : list (list ascii * Z) :=
  padded 1 12 ++ (if strict then [] else unpadded).

Definition day_texts (strict : bool) : list (list ascii * Z) :=
  padded 1 31 ++ (if strict then [] else unpadded ++ blank_padded).

(** The calendar: a year is a leap year when it is divisible by 4 and not
    by 100, or by 400. *)
Definition leap_year (y : Z) : bool :=
  ((y mod 4 =? 0) && negb (y mod 100 =? 0)) || (y mod 400 =? 0).

Definition month_lengths (y : Z) : list Z :=
  [31; if leap_year y then 29 else 28; 31; 30; 31; 30; 31; 31; 30; 31; 30; 31].

(** The day [d] of the month [m] of the year [y] exists (years 1 to
    9999). *)
Definition calendar_date (y m d : Z) : bool :=
  (1 <=? y) && (y <=? 9999) && (1 <=? m) && (1 <=? d) &&
  match month_lengths y !! Z.to_nat (m - 1) with
  | Some n => d <=? n
  | None => false
  end.

(** Year, month and day of a text of three fields separated by "-". *)
Definition date_fields (strict : bool) (date_str : string) : option (Z * Z * Z) :=
  match split_at "-" (chars date_str) with
  | [yt; mt; dt] =>
      match year_text yt, od_get mt (month_texts strict), od_get dt (day_texts strict)
      with
      | Some y, Some m, Some d => Some (y, m, d)
      | _, _, _ => None
      end
  | _ => None
  end.

Definition written_date (strict : bool) (date_str : string) : bool :=
  match date_fields strict date_str with
  | Some (y, m, d) => calendar_date y m d
  | None => false
  end.

(** A calendar date written YYYY-MM-DD, as the specification has it. *)
Definition iso_date (date_str : string) : bool := written_date true date_str.

(** A calendar date written as the four digits of the year, "-", the
    month, "-", the day, where month and day may also come without
    leading zero, and the day with a blank in its place. *)
Definition accepted_date (date_str : string) : bool := written_date false date_str.

(** ** The texts that a pattern matches *)

Definition all_ascii : list ascii := ascii_of_nat <$> seq 0 256.

Definition class_members (k : Strptime.cclass) : list ascii :=
  filter (λ c, Strptime.in_class k c = true) all_ascii.

Fixpoint alt_texts (a : list Strptime.cclass) : list (list ascii) :=
  match a with
  | [] => [[]]
  | k :: a' => c ← class_members k; cons c <$> alt_texts a'
  end.

Definition alts_of (i : Strptime.item) : list (list Strptime.cclass) :=
  match i with
  | Strptime.Group alts => alts
  | Strptime.Char _ => []
  end.

Definition group_texts (i : Strptime.item) : list (list ascii) :=
  a ← alts_of i; alt_texts a.

(** * Payloads and schedules used as examples *)

(** The payload of the unit tests. *)
Definition MOCK_API_DATA : Data :=
  mk_Data
    [ mk_DayRecord 1 "2024-10-10" "09:00" "18:00";
      mk_DayRecord 2 "2024-10-11" "08:00" "17:00" ]
    [ mk_SlotRecord 1 1 "11:00" "12:00";
      mk_SlotRecord 2 1 "15:00" "15:30";
      mk_SlotRecord 3 2 "09:30" "16:00" ].

Definition schedule_of (data : Data) : gmap string ScheduleData :=
  match _fetch_and_process_data data with
  | Ok s => s
  | Raise _ => ∅
  end.

Definition mock_schedule : gmap string ScheduleData := schedule_of MOCK_API_DATA.

(** [h:hm] is the clock time of hour [h] and minute [m]. *)
Notation "h ':h' m" := (mk_time h m) (at level 5, format "h ':h' m").

Definition mock_day_1 : ScheduleData :=
  mk_ScheduleData (9:h0, 18:h0) [(11:h0, 12:h0); (15:h0, 15:h30)].

(** One day, 09:00 to 18:00, with one busy slot whose end is before its
    start. *)
Definition inverted_data : Data :=
  mk_Data [ mk_DayRecord 1 "2024-10-10" "09:00" "18:00" ]
          [ mk_SlotRecord 1 1 "12:00" "10:00" ].

Definition inverted_schedule : gmap string ScheduleData := schedule_of inverted_data.

(** A model that has the malformed string as a key. *)
Definition slash_data : Data :=
  mk_Data [ mk_DayRecord 1 "2024/10/10" "09:00" "18:00" ] [].

Definition slash_schedule : gmap string ScheduleData := schedule_of slash_data.

(** A day record with a malformed time that a later record of the same
    identifier replaces. *)
Definition shadowed_data : Data :=
  mk_Data [ mk_DayRecord 1 "2024-10-10" "9-00" "18:00";
            mk_DayRecord 1 "2024-10-10" "09:00" "18:00" ]
          [].

(** A timeslot with a malformed time and an unknown day identifier. *)
Definition orphan_data : Data :=
  mk_Data [ mk_DayRecord 1 "2024-10-10" "09:00" "18:00" ]
          [ mk_SlotRecord 1 99 "9-00" "12:00" ].

(** A day record with a malformed time. *)
Definition malformed_data : Data :=
  mk_Data [ mk_DayRecord 1 "2024-10-10" "9-00" "18:00" ] [].

(** Keys that are dates without zero padding. *)
Definition unpadded_data : Data :=
  mk_Data [ mk_DayRecord 1 "2024-9-30" "09:00" "18:00";
            mk_DayRecord 2 "2024-10-01" "09:00" "18:00" ]
          [].

Definition unpadded_schedule : gmap string ScheduleData := schedule_of unpadded_data.

(** A busy slot that starts before the working hours. *)
Definition early_data : Data :=
  mk_Data [ mk_DayRecord 1 "2024-10-10" "09:00" "18:00" ]
          [ mk_SlotRecord 1 1 "08:00" "10:00" ].

Definition early_schedule : gmap string ScheduleData := schedule_of early_data.

(** Two day identifiers with the same date: the hours of the second win,
    the timeslots of both are kept. *)
Definition shared_date_data : Data :=
  mk_Data [ mk_DayRecord 1 "2024-10-10" "09:00" "18:00";
            mk_DayRecord 2 "2024-10-10" "10:00" "16:00" ]
          [ mk_SlotRecord 1 2 "14:00" "15:00";
            mk_SlotRecord 2 1 "11:00" "12:00" ].

(** Two timeslots with the same start, given out of order with a third. *)
Definition ties_data : Data :=
  mk_Data [ mk_DayRecord 1 "2024-10-10" "09:00" "18:00" ]
          [ mk_SlotRecord 1 1 "14:00" "15:00";
            mk_SlotRecord 2 1 "11:00" "13:00";
            mk_SlotRecord 3 1 "11:00" "12:00" ].

(** Busy slots that overlap one another, one of them ending before it
    starts, one reaching past the end of the working hours. *)
Definition tangled_data : Data :=
  mk_Data [ mk_DayRecord 1 "2024-10-10" "09:00" "18:00" ]
          [ mk_SlotRecord 1 1 "10:00" "12:00";
            mk_SlotRecord 2 1 "11:00" "10:30";
            mk_SlotRecord 3 1 "17:00" "19:00" ].

(** A busy slot that is empty: 12:00 to 12:00. *)
Definition empty_slot_data : Data :=
  mk_Data [ mk_DayRecord 1 "2024-10-10" "09:00" "18:00" ]
          [ mk_SlotRecord 1 1 "12:00" "12:00" ].

(** A busy slot that starts after the end of the working hours. *)
Definition late_data : Data :=
  mk_Data [ mk_DayRecord 1 "2024-10-10" "09:00" "18:00" ]
          [ mk_SlotRecord 1 1 "19:00" "20:00" ].

(** A day that is all working hours, with no timeslot. *)
Definition whole_day_data : Data :=
  mk_Data [ mk_DayRecord 1 "2024-10-10" "00:00" "23:59" ] [].

(** * Properties *)

(** ** The unit tests *)

Example strptime_HM_0900 : Strptime.strptime_HM "09:00" = Some (9, 0).
Proof. reflexivity. Qed.
Example strptime_HM_9_00 : Strptime.strptime_HM "9:00" = Some (9, 0).
Proof. reflexivity. Qed.
Example strptime_HM_2359 : Strptime.strptime_HM "23:59" = Some (23, 59).
Proof. reflexivity. Qed.
Example strptime_HM_dash : Strptime.strptime_HM "9-00" = None.
Proof. reflexivity. Qed.
Example strptime_HM_24 : Strptime.strptime_HM "24:00" = None.
Proof. reflexivity. Qed.
Example strptime_HM_60 : Strptime.strptime_HM "10:60" = None.
Proof. reflexivity. Qed.
Example strptime_Ymd_ok : Strptime.strptime_Ymd "2024-10-10" = Some (2024, 10, 10).
Proof. reflexivity. Qed.
Example strptime_Ymd_slash : Strptime.strptime_Ymd "2024/10/10" = None.
Proof. reflexivity. Qed.
Example strptime_Ymd_feb30 : Strptime.strptime_Ymd "2024-02-30" = None.
Proof. reflexivity. Qed.
Example strptime_Ymd_feb29 : Strptime.strptime_Ymd "2024-02-29" = Some (2024, 2, 29).
Proof. reflexivity. Qed.
Example strptime_Ymd_short : Strptime.strptime_Ymd "2024-1-5" = Some (2024, 1, 5).
Proof. reflexivity. Qed.

Example test_get_busy_slots :
  get_busy_slots mock_schedule "2024-10-10" = Ok [(11:h0, 12:h0); (15:h0, 15:h30)].
Proof. vm_compute. reflexivity. Qed.

Example test_get_free_slots :
  get_free_slots mock_schedule "2024-10-10"
  = Ok [(9:h0, 11:h0); (12:h0, 15:h0); (15:h30, 18:h0)].
Proof. vm_compute. reflexivity. Qed.

Example test_find_available_slots_for_duration :
  find_available_slots_for_duration mock_schedule 60
  = Ok [ ("2024-10-10", [(9:h0, 11:h0); (12:h0, 15:h0); (15:h30, 18:h0)]);
         ("2024-10-11", [(8:h0, 9:h30); (16:h0, 17:h0)]) ].
Proof. vm_compute. reflexivity. Qed.

Example test_find_available_slots_for_duration_not_found :
  find_available_slots_for_duration mock_schedule 181 = Ok [].
Proof. vm_compute. reflexivity. Qed.

Example test_is_slot_available :
  is_slot_available mock_schedule "2024-10-10" "10:00" "10:45" = Ok true ∧
  is_slot_available mock_schedule "2024-10-10" "11:30" "12:30" = Ok false ∧
  is_slot_available mock_schedule "2024-10-10" "08:00" "09:00" = Ok false ∧
  is_slot_available mock_schedule "2024-10-10" "9-00" "10-00" = Raise InvalidTimeFormat ∧
  is_slot_available mock_schedule "2024-10-10" "11:00" "10:00" = Raise InvalidRange.
Proof. vm_compute. repeat split. Qed.

(** ** The order on clock times *)

Lemma time_lt_iff a b :
  time_lt a b ↔ hour a < hour b ∨ (hour a = hour b ∧ minute a < minute b).
Proof.
  unfold time_lt, time_cmp.
  destruct (Z.compare_spec (hour a) (hour b)), (Z.compare_spec (minute a) (minute b));
    split; (congruence || lia).
Qed.

Lemma time_le_iff a b :
  time_le a b ↔ hour a < hour b ∨ (hour a = hour b ∧ minute a ≤ minute b).
Proof.
  unfold time_le, time_cmp.
  destruct (Z.compare_spec (hour a) (hour b)), (Z.compare_spec (minute a) (minute b));
    split; (congruence || lia).
Qed.

Lemma time_ge_iff a b :
  time_ge a b ↔ hour b < hour a ∨ (hour a = hour b ∧ minute b ≤ minute a).
Proof.
  unfold time_ge, time_cmp.
  destruct (Z.compare_spec (hour a) (hour b)), (Z.compare_spec (minute a) (minute b));
    split; (congruence || lia).
Qed.

Lemma time_eq_iff (a b : time) : a = b ↔ hour a = hour b ∧ minute a = minute b.
Proof. destruct a, b; simpl. split; [intros [= -> ->]; done | intros [-> ->]; done]. Qed.

(** Goals about the order of clock times, by linear arithmetic on the
    fields. *)
Ltac time_order :=
  unfold time_max, time_min in *;
  repeat case_decide;
  repeat match goal with
    | H : context [time_lt _ _] |- _ => rewrite time_lt_iff in H
    | H : context [time_le _ _] |- _ => rewrite time_le_iff in H
    | H : context [time_ge _ _] |- _ => rewrite time_ge_iff in H
    | H : context [@eq time _ _] |- _ => rewrite time_eq_iff in H
    end;
  rewrite ?time_lt_iff, ?time_le_iff, ?time_ge_iff, ?time_eq_iff;
  lia.

#[global] Instance time_le_preorder : PreOrder time_le.
Proof. split; [intros a | intros a b c ? ?]; time_order. Qed.

#[global] Instance time_le_total : Total time_le.
Proof. intros a b. rewrite !time_le_iff. lia. Qed.

#[global] Instance time_lt_strict : StrictOrder time_lt.
Proof. split; [intros a ? | intros a b c ? ?]; time_order. Qed.

Lemma time_max_le_l a b : time_le a (time_max a b).
Proof. time_order. Qed.

Lemma time_max_le_r a b : time_le b (time_max a b).
Proof. time_order. Qed.

(** The order of clock times as a total order, for the decision procedure
    of the Standard Library. *)
Module TimeOrder.
Definition t : Type := time.
Definition eq : time → time → Prop := @Logic.eq time.
Definition lt : time → time → Prop := time_lt.
Definition le : time → time → Prop := time_le.

Lemma eq_equiv : Equivalence eq.
Proof. unfold eq. apply _. Qed.

Lemma lt_strorder : StrictOrder lt.
Proof. exact time_lt_strict. Qed.

Lemma lt_compat : Proper (eq ==> eq ==> iff) lt.
Proof. intros a b -> c d ->. done. Qed.

Lemma le_lteq a b : le a b ↔ lt a b ∨ eq a b.
Proof. unfold le, lt, eq. rewrite time_le_iff, time_lt_iff, time_eq_iff. lia. Qed.

Lemma lt_total a b : lt a b ∨ eq a b ∨ lt b a.
Proof. unfold lt, eq. rewrite !time_lt_iff, time_eq_iff. lia. Qed.
End TimeOrder.

Module TimeOrderTac := OrdersTac.MakeOrderTac TimeOrder TimeOrder.

(** Goals about the order of clock times with many cases: split the
    hypotheses, then saturate. *)
Ltac time_cases :=
  unfold time_max, time_min, time_ge in *;
  repeat case_decide;
  repeat match goal with
    | H : _ ∧ _ |- _ => destruct H
    | H : _ ∨ _ |- _ => destruct H
    | H : ¬ (_ ∧ _) |- _ => apply not_and_l in H
    end;
  change time_lt with TimeOrder.lt in *;
  change time_le with TimeOrder.le in *;
  change (@Logic.eq time) with TimeOrder.eq in *;
  first [ done | exfalso; TimeOrderTac.order | TimeOrderTac.order ].

(** On valid times the order is that of the minutes since midnight. *)
Lemma time_lt_to_minutes a b :
  valid_time a → valid_time b → time_lt a b ↔ to_minutes a < to_minutes b.
Proof. unfold valid_time, to_minutes. rewrite time_lt_iff. lia. Qed.

(** ** The sweep of [get_free_slots] *)

Section sweep_facts.
Variable workEnd : time.

Lemma fold_sweep_step busy cur acc :
  (let '(c, f) := fold_left sweep_step busy (cur, acc) in
   if decide (time_lt c workEnd) then f ++ [(c, workEnd)] else f)
  = acc ++ sweep cur busy workEnd.
Proof.
  revert cur acc. induction busy as [|[bs be] busy IH]; intros cur acc; simpl.
  - case_decide; [done | by rewrite app_nil_r].
  - rewrite IH. case_decide; [by rewrite <- app_assoc | done].
Qed.

Lemma sweep_positive busy cur :
  Forall (λ s, time_lt s.1 s.2) (sweep cur busy workEnd).
Proof.
  revert cur. induction busy as [|[bs be] busy IH]; intros cur; simpl.
  - case_decide; repeat constructor; done.
  - apply Forall_app. split; [case_decide; repeat constructor; done | apply IH].
Qed.

Lemma sweep_after_cursor busy cur :
  Forall (λ s, time_le cur s.1) (sweep cur busy workEnd).
Proof.
  revert cur. induction busy as [|[bs be] busy IH]; intros cur; simpl.
  - case_decide; repeat constructor; simpl; reflexivity.
  - apply Forall_app. split.
    + case_decide; repeat constructor; simpl; reflexivity.
    + eapply Forall_impl; [apply IH | ].
      intros s Hs. simpl in Hs. etrans; [apply time_max_le_l | exact Hs].
Qed.

Lemma sweep_sorted busy cur : sorted_by_start (sweep cur busy workEnd).
Proof.
  unfold sorted_by_start.
  revert cur. induction busy as [|[bs be] busy IH]; intros cur; simpl.
  - case_decide; repeat constructor.
  - case_decide; simpl; [ | apply IH].
    constructor; [apply IH | ].
    eapply Forall_impl; [apply sweep_after_cursor | ].
    intros s Hs. simpl in *. etrans; [apply time_max_le_l | exact Hs].
Qed.

(** With proper busy slots every gap ends before the next one starts. *)
Lemma sweep_chain busy cur :
  Forall proper busy →
  StronglySorted (λ a b, time_le a.2 b.1) (sweep cur busy workEnd).
Proof.
  revert cur. induction busy as [|[bs be] busy IH]; intros cur Hp; simpl.
  - case_decide; repeat constructor.
  - apply Forall_cons in Hp as [Hb Hp]. unfold proper in Hb; simpl in Hb.
    case_decide; simpl; [ | by apply IH].
    constructor; [by apply IH | ].
    eapply Forall_impl; [apply sweep_after_cursor | ].
    intros s Hs. simpl in *.
    etrans; [exact Hb | ]. etrans; [apply time_max_le_r | exact Hs].
Qed.
(** With the cursor at or past the end of the working hours no gap up
    to that end is emitted: every gap ends where a busy slot starts. *)
Lemma sweep_no_final_gap busy cur :
  time_le workEnd cur →
  Forall (λ s, ∃ b, b ∈ busy ∧ s.2 = b.1) (sweep cur busy workEnd).
Proof.
  revert cur. induction busy as [|[bs be] busy IH]; intros cur Hcur; simpl.
  - rewrite decide_False by time_order. constructor.
  - apply Forall_app. split.
    + case_decide; repeat constructor. exists (bs, be). split; [by left | done].
    + eapply Forall_impl; [apply IH; by etrans; [ | apply time_max_le_l] | ].
      intros s (b & Hb & Hs). exists b. split; [by right | done].
Qed.
End sweep_facts.

Lemma free_slots_of_sweep sd :
  free_slots_of sd = sweep (work_hours sd).1 (busy_slots sd) (work_hours sd).2.
Proof.
  unfold free_slots_of. destruct (work_hours sd) as [ws we]; simpl.
  apply (fold_sweep_step we (busy_slots sd) ws []).
Qed.

Lemma chain_disjoint (l : list TimeTuple) :
  Forall (λ s, time_lt s.1 s.2) l →
  StronglySorted (λ a b, time_le a.2 b.1) l →
  pairwise_disjoint l ∧ StronglySorted (λ a b, time_lt a.1 b.1) l ∧ NoDup l.
Proof.
  induction 2 as [|a l Hl IH Ha]; [repeat split; constructor | ].
  apply Forall_cons in H as [Hpos H]. destruct (IH H) as (IH1 & IH2 & IH3).
  repeat split.
  - constructor; [done | ]. eapply Forall_impl; [exact Ha | ].
    intros b Hb. simpl in Hb. unfold overlaps. time_order.
  - constructor; [done | ]. eapply Forall_impl; [exact Ha | ].
    intros b Hb. simpl in Hb. time_order.
  - constructor; [ | done]. intros Hin.
    rewrite Forall_forall in Ha. specialize (Ha _ Hin). simpl in Ha. time_order.
Qed.

(** ** Date validation and lookup *)

Lemma _get_day_schedule_valid self date_str :
  well_formed_date date_str = true →
  _get_day_schedule self date_str = Ok (self !! date_str).
Proof.
  unfold well_formed_date, _get_day_schedule, strptime_date.
  destruct (Strptime.strptime_Ymd date_str) as [[[y m] d]|]; [done | discriminate].
Qed.

Lemma _get_day_schedule_invalid self date_str :
  well_formed_date date_str = false →
  _get_day_schedule self date_str = Raise InvalidDateFormat.
Proof.
  unfold well_formed_date, _get_day_schedule, strptime_date.
  destruct (Strptime.strptime_Ymd date_str) as [[[y m] d]|]; [discriminate | done].
Qed.

Lemma get_free_slots_present self date_str sd :
  well_formed_date date_str = true → self !! date_str = Some sd →
  get_free_slots self date_str = Ok (free_slots_of sd).
Proof.
  intros Hd Hsd. unfold get_free_slots.
  rewrite (_get_day_schedule_valid _ _ Hd), Hsd. done.
Qed.

Lemma get_busy_slots_present self date_str sd :
  well_formed_date date_str = true → self !! date_str = Some sd →
  get_busy_slots self date_str = Ok (busy_slots sd).
Proof.
  intros Hd Hsd. unfold get_busy_slots.
  rewrite (_get_day_schedule_valid _ _ Hd), Hsd. done.
Qed.

(** ** Ingestion sorts the busy slots *)

Lemma insert_by_start_elem x l y : y ∈ insert_by_start x l ↔ y = x ∨ y ∈ l.
Proof.
  induction l as [|z l IH]; simpl.
  - rewrite list_elem_of_singleton, elem_of_nil. tauto.
  - case_decide; rewrite !elem_of_cons, ?IH; tauto.
Qed.

Lemma insert_by_start_sorted x l :
  sorted_by_start l → sorted_by_start (insert_by_start x l).
Proof.
  unfold sorted_by_start. induction 1 as [|y l Hl IH Hy]; simpl.
  - repeat constructor.
  - case_decide as Hlt.
    + constructor; [done | ]. apply Forall_forall. intros z Hz.
      apply insert_by_start_elem in Hz as [-> | Hz]; [time_order | ].
      rewrite Forall_forall in Hy. by apply Hy.
    + constructor; [by constructor | ].
      constructor; [time_order | ].
      eapply Forall_impl; [exact Hy | ]. intros z Hz. simpl in Hz. time_order.
Qed.

Lemma sort_by_start_sorted l : sorted_by_start (sort_by_start l).
Proof.
  induction l as [|x l IH]; simpl; [constructor | by apply insert_by_start_sorted].
Qed.

Lemma fetched_busy_sorted data self date_str sd :
  _fetch_and_process_data data = Ok self → self !! date_str = Some sd →
  sorted_by_start (busy_slots sd).
Proof.
  unfold _fetch_and_process_data. intros Hf Hsd.
  destruct (for_each add_day _ _) as [p1|]; simpl in Hf; [ | discriminate].
  destruct (for_each (add_slot _) _ _) as [p2|]; simpl in Hf; [ | discriminate].
  injection Hf as <-. rewrite lookup_fmap in Hsd.
  destruct (p2 !! date_str) as [sd'|]; simpl in Hsd; [ | discriminate].
  injection Hsd as <-. apply sort_by_start_sorted.
Qed.

(** ** Free slots *)

(** C1. For a date of a constructed model, [get_free_slots] returns the
    sweep of the specification over the stored busy slots, which are in
    ascending start order: from the start of the working hours, a gap
    [(cursor, bStart)] exactly when [cursor < bStart], the cursor moved to
    [max(cursor, bEnd)], and a last gap up to the end of the working hours
    exactly when the cursor is before it. No gap has negative or zero
    length, and over busy intervals (end not before start), overlapping
    or nested as they may be, no gap is emitted twice. *)
Theorem C1_get_free_slots_is_sweep data self date_str sd :
  _fetch_and_process_data data = Ok self →
  well_formed_date date_str = true →
  self !! date_str = Some sd →
  let free := sweep (work_hours sd).1 (busy_slots sd) (work_hours sd).2 in
  sorted_by_start (busy_slots sd) ∧
  get_free_slots self date_str = Ok free ∧
  Forall (λ s, time_lt s.1 s.2) free ∧
  (Forall proper (busy_slots sd) → NoDup free).
Proof.
  intros Hf Hd Hsd free. split; [by eapply fetched_busy_sorted | ].
  split; [ | split].
  - rewrite (get_free_slots_present _ _ _ Hd Hsd). by rewrite free_slots_of_sweep.
  - apply sweep_positive.
  - intros Hp. apply chain_disjoint; [apply sweep_positive | by apply sweep_chain].
Qed.

Lemma C1_witness :
  get_free_slots mock_schedule "2024-10-10"
    = Ok [(9:h0, 11:h0); (12:h0, 15:h0); (15:h30, 18:h0)] ∧
  NoDup [(9:h0, 11:h0); (12:h0, 15:h0); (15:h30, 18:h0)].
Proof.
  assert (Hf : _fetch_and_process_data MOCK_API_DATA = Ok mock_schedule)
    by (vm_compute; reflexivity).
  assert (Hd : well_formed_date "2024-10-10" = true) by reflexivity.
  assert (Hsd : mock_schedule !! "2024-10-10" = Some mock_day_1)
    by (vm_compute; reflexivity).
  destruct (C1_get_free_slots_is_sweep _ _ _ _ Hf Hd Hsd) as (_ & Hfree & _ & Hnd).
  split; [exact Hfree | ].
  apply Hnd. repeat constructor; unfold proper; simpl; vm_compute; discriminate.
Defined.

(** C10, as stated, fails: a constructed model may hold a busy slot that
    ends before it starts, and the free slots then overlap. *)
Lemma C10_counterexample :
  _fetch_and_process_data inverted_data = Ok inverted_schedule ∧
  well_formed_date "2024-10-10" = true ∧
  get_free_slots inverted_schedule "2024-10-10"
    = Ok [(9:h0, 12:h0); (10:h0, 18:h0)] ∧
  ¬ pairwise_disjoint [(9:h0, 12:h0); (10:h0, 18:h0)].
Proof.
  split; [vm_compute; reflexivity | ].
  split; [reflexivity | ].
  split; [vm_compute; reflexivity | ].
  intros Hd. apply StronglySorted_inv in Hd as [_ Hd].
  apply Forall_cons in Hd as [Hd _]. apply Hd. vm_compute. reflexivity.
Qed.

(** C10, amended. For every model and every well-formed date string,
    [get_free_slots] returns intervals whose start is strictly before
    their end, in ascending order of start, whatever the busy slots and
    the working hours are; when every busy slot of the date ends no
    earlier than it starts, the intervals are moreover pairwise disjoint,
    with strictly ascending starts; and when the working hours end no
    later than they start, no interval up to their end is returned: every
    interval ends where a busy slot starts. *)
Theorem C10_free_slots_well_formed (self : gmap string ScheduleData) date_str :
  well_formed_date date_str = true →
  ∃ free,
    get_free_slots self date_str = Ok free ∧
    Forall (λ s, time_lt s.1 s.2) free ∧
    sorted_by_start free ∧
    (∀ sd, self !! date_str = Some sd → Forall proper (busy_slots sd) →
           pairwise_disjoint free ∧ StronglySorted (λ a b, time_lt a.1 b.1) free) ∧
    (∀ sd, self !! date_str = Some sd →
           time_le (work_hours sd).2 (work_hours sd).1 →
           Forall (λ s, ∃ b, b ∈ busy_slots sd ∧ s.2 = b.1) free).
Proof.
  intros Hd. destruct (self !! date_str) as [sd|] eqn:Hsd.
  - exists (free_slots_of sd). split; [by apply get_free_slots_present | ].
    rewrite free_slots_of_sweep.
    split; [apply sweep_positive | ]. split; [apply sweep_sorted | ].
    split; [ | intros sd' [= <-] Hle; by apply sweep_no_final_gap].
    intros sd' [= <-] Hp.
    destruct (chain_disjoint _
                (sweep_positive (work_hours sd).2 (busy_slots sd) (work_hours sd).1)
                (sweep_chain (work_hours sd).2 _ (work_hours sd).1 Hp))
      as (? & ? & _).
    done.
  - exists []. unfold get_free_slots.
    rewrite (_get_day_schedule_valid _ _ Hd), Hsd.
    split; [done | ]. split; [constructor | ]. split; [constructor | ].
    split; intros sd [=].
Qed.

Lemma C10_witness :
  ∃ free,
    get_free_slots mock_schedule "2024-10-10" = Ok free ∧
    Forall (λ s, time_lt s.1 s.2) free ∧ sorted_by_start free ∧
    pairwise_disjoint free.
Proof.
  destruct (C10_free_slots_well_formed mock_schedule "2024-10-10" eq_refl)
    as (free & Hfree & Hpos & Hsorted & Hdisjoint & _).
  exists free. split; [exact Hfree | ]. split; [exact Hpos | ].
  split; [exact Hsorted | ].
  assert (Hsd : mock_schedule !! "2024-10-10" = Some mock_day_1)
    by (vm_compute; reflexivity).
  apply (Hdisjoint mock_day_1 Hsd).
  repeat constructor; vm_compute; discriminate.
Defined.

(** ** Availability of a requested interval *)

Lemma _parse_time_cases s : (∃ t, _parse_time s = Ok t) ∨ _parse_time s = Raise FormatError.
Proof.
  unfold _parse_time. destruct (Strptime.strptime_HM s) as [[h m]|]; eauto.
Qed.

(** What [is_slot_available] does once both times are parsed. *)
Lemma is_slot_available_parsed self date_str start_str end_str cs ce :
  _parse_time start_str = Ok cs → _parse_time end_str = Ok ce →
  is_slot_available self date_str start_str end_str
  = if decide (time_ge cs ce) then Raise InvalidRange
    else if well_formed_date date_str then
      match self !! date_str with
      | None => Ok false
      | Some sd =>
          Ok (bool_decide (time_le (work_hours sd).1 cs) &&
              bool_decide (time_le ce (work_hours sd).2) &&
              no_busy_overlap cs ce (busy_slots sd))
      end
    else Raise InvalidDateFormat.
Proof.
  intros Hs He. unfold is_slot_available. rewrite Hs, He. simpl.
  case_decide; [done | ].
  destruct (well_formed_date date_str) eqn:Hd.
  - rewrite (_get_day_schedule_valid _ _ Hd). simpl.
    destruct (self !! date_str) as [sd|]; [ | done].
    destruct (work_hours sd) as [ws we]. simpl.
    destruct (bool_decide (time_le ws cs)), (bool_decide (time_le ce we)); done.
  - by rewrite (_get_day_schedule_invalid _ _ Hd).
Qed.

Lemma no_busy_overlap_Forall cs ce busy :
  no_busy_overlap cs ce busy = true ↔ Forall (λ b, ¬ overlaps (cs, ce) b) busy.
Proof.
  induction busy as [|[bs be] busy IH]; simpl.
  - split; [constructor | done].
  - rewrite Forall_cons, <- IH. unfold overlaps; simpl.
    case_decide; split; try done; intros [? ?]; done.
Qed.

(** A request that ends where a busy slot starts, or starts where it ends,
    does not overlap it. *)
Lemma touching_not_overlaps cs ce (b : TimeTuple) :
  time_lt cs ce → ce = b.1 ∨ cs = b.2 → ¬ overlaps (cs, ce) b.
Proof.
  destruct b as [bs be]. unfold overlaps. simpl. intros Hlt [-> | ->]; time_order.
Qed.

(** C2. For a date of the model and a request whose times parse with
    start before end, [is_slot_available] returns [true] exactly when the
    request lies within the working hours and overlaps no busy slot under
    the test [max(reqStart, bStart) < min(reqEnd, bEnd)]; a busy slot the
    request only touches at a boundary is no overlap, so a request inside
    the working hours whose every busy slot is touched or not overlapped
    is available. *)
Theorem C2_is_slot_available_iff self date_str sd start_str end_str cs ce :
  well_formed_date date_str = true →
  self !! date_str = Some sd →
  _parse_time start_str = Ok cs → _parse_time end_str = Ok ce →
  time_lt cs ce →
  ∃ b, is_slot_available self date_str start_str end_str = Ok b ∧
       (b = true ↔
          (time_le (work_hours sd).1 cs ∧ time_le ce (work_hours sd).2) ∧
          Forall (λ busy, ¬ overlaps (cs, ce) busy) (busy_slots sd)) ∧
       (time_le (work_hours sd).1 cs ∧ time_le ce (work_hours sd).2 →
        Forall (λ busy, ce = busy.1 ∨ cs = busy.2 ∨ ¬ overlaps (cs, ce) busy)
               (busy_slots sd) →
        b = true).
Proof.
  intros Hd Hsd Hs He Hlt.
  rewrite (is_slot_available_parsed _ _ _ _ _ _ Hs He), Hd, Hsd.
  case_decide as Hge; [time_order | ].
  eexists. split; [reflexivity | ].
  assert (Hiff : bool_decide (time_le (work_hours sd).1 cs) &&
                 bool_decide (time_le ce (work_hours sd).2) &&
                 no_busy_overlap cs ce (busy_slots sd) = true ↔
                 (time_le (work_hours sd).1 cs ∧ time_le ce (work_hours sd).2) ∧
                 Forall (λ busy, ¬ overlaps (cs, ce) busy) (busy_slots sd)).
  { rewrite !andb_true_iff, !bool_decide_eq_true, no_busy_overlap_Forall. done. }
  split; [exact Hiff | ].
  intros Hin Hall. apply Hiff. split; [done | ].
  eapply Forall_impl; [exact Hall | ]. intros b [Hb | [Hb | Hb]]; [ | | done].
  - apply touching_not_overlaps; auto.
  - apply touching_not_overlaps; auto.
Qed.

(** The day of the unit tests, with a request right after the busy slot
    11:00 to 12:00. *)
Lemma C2_witness :
  is_slot_available mock_schedule "2024-10-10" "12:00" "12:30" = Ok true ∧
  ¬ overlaps (12:h0, 12:h30) (11:h0, 12:h0).
Proof.
  assert (Hsd : mock_schedule !! "2024-10-10" = Some mock_day_1)
    by (vm_compute; reflexivity).
  assert (Hlt : time_lt 12:h0 12:h30) by reflexivity.
  destruct (C2_is_slot_available_iff mock_schedule "2024-10-10" mock_day_1
              "12:00" "12:30" 12:h0 12:h30 eq_refl Hsd eq_refl eq_refl Hlt)
    as (b & Hb & Hiff & _).
  assert (Hno : Forall (λ busy, ¬ overlaps (12:h0, 12:h30) busy) (busy_slots mock_day_1))
    by (repeat constructor; vm_compute; discriminate).
  split.
  - rewrite Hb. f_equal. apply Hiff. split; [ | exact Hno].
    split; vm_compute; discriminate.
  - apply Forall_cons in Hno as [Hno _]. exact Hno.
Defined.

(** C7. [is_slot_available] checks in a fixed order: a start or end time
    that does not parse raises [InvalidTimeFormat] whatever the other
    arguments are; parsed times with start not before end raise
    [InvalidRange] whatever the date string and the model are; the date
    is looked at only after both checks have passed, and is then rejected
    with [InvalidDateFormat] or looked up. *)
Theorem C7_validation_order self date_str start_str end_str :
  (_parse_time start_str = Raise FormatError ∨ _parse_time end_str = Raise FormatError →
   is_slot_available self date_str start_str end_str = Raise InvalidTimeFormat) ∧
  (∀ cs ce, _parse_time start_str = Ok cs → _parse_time end_str = Ok ce →
     time_ge cs ce →
     is_slot_available self date_str start_str end_str = Raise InvalidRange) ∧
  (∀ cs ce, _parse_time start_str = Ok cs → _parse_time end_str = Ok ce →
     time_lt cs ce →
     if well_formed_date date_str
     then ∃ b, is_slot_available self date_str start_str end_str = Ok b
     else is_slot_available self date_str start_str end_str = Raise InvalidDateFormat).
Proof.
  split; [ | split].
  - intros [Hs | He]; unfold is_slot_available.
    + by rewrite Hs.
    + rewrite He. destruct (_parse_time_cases start_str) as [[t ->] | ->]; done.
  - intros cs ce Hs He Hge.
    rewrite (is_slot_available_parsed _ _ _ _ _ _ Hs He). by case_decide.
  - intros cs ce Hs He Hlt.
    rewrite (is_slot_available_parsed _ _ _ _ _ _ Hs He).
    case_decide as Hge; [time_order | ].
    destruct (well_formed_date date_str); [ | done].
    destruct (self !! date_str); eauto.
Qed.

Lemma C7_witness :
  is_slot_available mock_schedule "2024/10/10" "9-00" "10:00" = Raise InvalidTimeFormat ∧
  is_slot_available mock_schedule "2024/10/10" "11:00" "10:00" = Raise InvalidRange ∧
  is_slot_available mock_schedule "2024/10/10" "10:00" "11:00" = Raise InvalidDateFormat.
Proof.
  split; [ | split].
  - apply (C7_validation_order mock_schedule "2024/10/10" "9-00" "10:00").
    left. reflexivity.
  - apply (proj1 (proj2 (C7_validation_order mock_schedule "2024/10/10" "11:00" "10:00"))
             11:h0 10:h0); [reflexivity | reflexivity | vm_compute; discriminate].
  - apply (proj2 (proj2 (C7_validation_order mock_schedule "2024/10/10" "10:00" "11:00"))
             10:h0 11:h0); reflexivity.
Defined.

(** C8. For a well-formed date string that is no key of the model,
    [get_busy_slots] and [get_free_slots] return the empty list and
    [is_slot_available], given times that parse with start before end,
    returns [false]; none of them raises. *)
Theorem C8_absent_date self date_str :
  well_formed_date date_str = true →
  self !! date_str = None →
  get_busy_slots self date_str = Ok [] ∧
  get_free_slots self date_str = Ok [] ∧
  (∀ start_str end_str cs ce,
     _parse_time start_str = Ok cs → _parse_time end_str = Ok ce → time_lt cs ce →
     is_slot_available self date_str start_str end_str = Ok false).
Proof.
  intros Hd Hno. unfold get_busy_slots, get_free_slots.
  rewrite (_get_day_schedule_valid _ _ Hd), Hno. do 2 (split; [done | ]).
  intros ss es cs ce Hs He Hlt.
  rewrite (is_slot_available_parsed _ _ _ _ _ _ Hs He), Hd, Hno.
  case_decide; [time_order | done].
Qed.

Lemma C8_witness :
  get_busy_slots mock_schedule "2024-10-12" = Ok [] ∧
  get_free_slots mock_schedule "2024-10-12" = Ok [] ∧
  is_slot_available mock_schedule "2024-10-12" "10:00" "11:00" = Ok false.
Proof.
  assert (Hno : mock_schedule !! "2024-10-12" = None) by (vm_compute; reflexivity).
  destruct (C8_absent_date mock_schedule "2024-10-12" eq_refl Hno) as (Hb & Hf & Ha).
  split; [exact Hb | ]. split; [exact Hf | ].
  apply (Ha "10:00" "11:00" 10:h0 11:h0); reflexivity.
Defined.




(** ** Durations *)

Lemma timedelta_new_Ok days seconds td :
  timedelta_new days seconds = Ok td →
  total_seconds td = days * 86400 + seconds ∧
  0 ≤ td_seconds td < 86400 ∧ td_microseconds td = 0 ∧
  td_days td = days + seconds / 86400.
Proof.
  unfold timedelta_new, total_seconds. case_decide; [discriminate | ].
  intros [= <-]. simpl.
  pose proof (Z.mod_pos_bound seconds 86400 eq_refl).
  pose proof (Z.div_mod seconds 86400). lia.
Qed.

Lemma timedelta_ge_total a b :
  0 ≤ td_seconds a < 86400 → 0 ≤ td_seconds b < 86400 →
  td_microseconds a = 0 → td_microseconds b = 0 →
  timedelta_ge a b ↔ total_seconds b ≤ total_seconds a.
Proof.
  unfold timedelta_ge, timedelta_cmp, total_seconds. intros ? ? -> ->.
  destruct (Z.compare_spec (td_days a) (td_days b)),
           (Z.compare_spec (td_seconds a) (td_seconds b));
    simpl; split; (congruence || lia).
Qed.

Lemma timedelta_minutes_Ok n :
  0 < n ≤ max_timedelta_minutes → ∃ td, timedelta_minutes n = Ok td.
Proof.
  unfold timedelta_minutes, timedelta_new, max_timedelta_minutes. intros Hn.
  case_decide as Hov; [ | eauto]. exfalso.
  assert (n * 60 / 86400 = n / 1440) as Hq.
  { replace 86400 with (60 * 1440) by done. rewrite Z.mul_comm.
    rewrite Z.div_mul_cancel_l; lia. }
  rewrite Hq in Hov.
  assert (0 ≤ n / 1440) by (apply Z.div_pos; lia).
  assert (n / 1440 < 1000000000) by (apply Z.div_lt_upper_bound; lia).
  lia.
Qed.

Lemma timedelta_minutes_overflow n :
  max_timedelta_minutes < n → timedelta_minutes n = Raise OverflowError.
Proof.
  unfold timedelta_minutes, timedelta_new, max_timedelta_minutes. intros Hn.
  case_decide as Hov; [done | ]. exfalso. apply Hov.
  assert (n * 60 / 86400 = n / 1440) as ->.
  { replace 86400 with (60 * 1440) by done. rewrite Z.mul_comm.
    rewrite Z.div_mul_cancel_l; lia. }
  assert (1000000000 ≤ n / 1440) by (apply Z.div_le_lower_bound; lia).
  lia.
Qed.

Lemma dummy_sub_Ok (s e : time) :
  valid_time s → valid_time e →
  ∃ td, datetime_sub (combine dummy_date e) (combine dummy_date s) = Ok td.
Proof.
  unfold valid_time, datetime_sub, timedelta_new. simpl. intros Hs He.
  rewrite Z.sub_diag. case_decide as Hov; [ | eauto]. exfalso.
  set (x := minute e * 60 + hour e * 3600 - (minute s * 60 + hour s * 3600)) in *.
  assert (-86400 < x < 86400) by (unfold x; lia).
  assert (-1 ≤ x / 86400) by (apply Z.div_le_lower_bound; lia).
  assert (x / 86400 < 1) by (apply Z.div_lt_upper_bound; lia).
  lia.
Qed.

(** The duration of a slot, as the inner loop computes it. *)
Lemma free_duration_spec (free_start free_end : time) :
  valid_time free_start → valid_time free_end →
  ∃ free_duration,
    datetime_sub (combine dummy_date free_end) (combine dummy_date free_start)
      = Ok free_duration ∧
    total_seconds free_duration = 60 * span_minutes (free_start, free_end) ∧
    0 ≤ td_seconds free_duration < 86400 ∧
    td_microseconds free_duration = 0.
Proof.
  intros Hs He. destruct (dummy_sub_Ok _ _ Hs He) as [td Htd].
  exists td. split; [exact Htd | ].
  unfold datetime_sub in Htd. simpl in Htd. rewrite Z.sub_diag in Htd.
  apply timedelta_new_Ok in Htd as (Htot & Hsec & Hus & _).
  split; [ | done]. unfold span_minutes. simpl. lia.
Qed.

Lemma free_duration_ge (free_start free_end : time) free_duration n required_duration :
  valid_time free_start → valid_time free_end →
  datetime_sub (combine dummy_date free_end) (combine dummy_date free_start)
    = Ok free_duration →
  timedelta_minutes n = Ok required_duration →
  timedelta_ge free_duration required_duration
  ↔ n ≤ span_minutes (free_start, free_end).
Proof.
  intros Hs He Hsub Hreq.
  destruct (free_duration_spec _ _ Hs He) as (td & Htd & Hspan & Hsec & Hus).
  rewrite Hsub in Htd. injection Htd as <-.
  apply timedelta_new_Ok in Hreq as (Hrt & Hrs & Hru & _).
  rewrite timedelta_ge_total by done. rewrite Hspan, Hrt. lia.
Qed.



(** ** Times that [strptime] returns are valid *)

Lemma in_range_spec lo hi c :
  Strptime.in_range lo hi c = true
  ↔ (N_of_ascii lo ≤ N_of_ascii c ∧ N_of_ascii c ≤ N_of_ascii hi)%N.
Proof.
  unfold Strptime.in_range. rewrite andb_true_iff, !N.leb_le. done.
Qed.

Lemma match_alt_classes a s m r :
  Strptime.match_alt a s = Some (m, r) →
  Forall2 (λ k c, Strptime.in_class k c = true) a m.
Proof.
  revert s m r. induction a as [|k a IH]; intros s m r; simpl.
  - intros [= <- <-]. constructor.
  - destruct s as [|c s]; [discriminate | ].
    destruct (Strptime.in_class k c) eqn:Hk; [ | discriminate].
    destruct (Strptime.match_alt a s) as [[m' r']|] eqn:Hm; [ | discriminate].
    intros [= <- <-]. constructor; [done | by eapply IH].
Qed.

Lemma first_alt_Some {B} (continue : list ascii → list ascii → option B) alts s b :
  Strptime.first_alt continue alts s = Some b →
  ∃ a m r, a ∈ alts ∧ Strptime.match_alt a s = Some (m, r) ∧ continue m r = Some b.
Proof.
  induction alts as [|a alts IH]; simpl; [discriminate | ].
  intros H.
  assert (Hrest : Strptime.first_alt continue alts s = Some b →
                  ∃ a0 m r, a0 ∈ a :: alts ∧ Strptime.match_alt a0 s = Some (m, r)
                            ∧ continue m r = Some b).
  { intros H'. destruct (IH H') as (a0 & m & r & ? & ? & ?).
    exists a0, m, r. split; [by right | done]. }
  destruct (Strptime.match_alt a s) as [[m r]|] eqn:Hm; [ | by apply Hrest].
  destruct (continue m r) as [b'|] eqn:Hc; [ | by apply Hrest].
  injection H as <-. exists a, m, r. split; [by left | done].
Qed.

Ltac class_facts :=
  repeat match goal with
    | H : Forall2 _ (_ :: _) _ |- _ =>
        apply Forall2_cons_inv_l in H as (? & ? & ? & H & ->)
    | H : Forall2 _ [] _ |- _ => apply Forall2_nil_inv_l in H as ->
    | H : Strptime.in_class (Strptime.Lit _) _ = true |- _ =>
        apply bool_decide_eq_true in H as ->
    | H : Strptime.in_class _ _ = true |- _ =>
        apply in_range_spec in H; simpl in H
    end.

Ltac int_bounds :=
  unfold Strptime.int, Strptime.is_digit, Strptime.in_range, Strptime.digit_value;
  simpl;
  repeat match goal with
    | |- context [(?a <=? ?b)%N] => destruct (N.leb_spec a b); simpl
    end;
  lia.

Lemma hour_text_bound a m :
  a ∈ [ [Strptime.Lit "2"; Strptime.r_ "0" "3"]; [Strptime.r_ "0" "1"; Strptime.d_];
        [Strptime.d_] ]%char →
  Forall2 (λ k c, Strptime.in_class k c = true) a m →
  0 ≤ Strptime.int m < 24.
Proof.
  intros Ha Hm. rewrite !elem_of_cons, elem_of_nil in Ha.
  destruct Ha as [-> | [-> | [-> | []]]]; class_facts; int_bounds.
Qed.

Lemma minute_text_bound a m :
  a ∈ [ [Strptime.r_ "0" "5"; Strptime.d_]; [Strptime.d_] ]%char →
  Forall2 (λ k c, Strptime.in_class k c = true) a m →
  0 ≤ Strptime.int m < 60.
Proof.
  intros Ha Hm. rewrite !elem_of_cons, elem_of_nil in Ha.
  destruct Ha as [-> | [-> | []]]; class_facts; int_bounds.
Qed.

Lemma match_items_group alts p s :
  Strptime.match_items (Strptime.Group alts :: p) s
  = Strptime.first_alt
      (λ m r, match Strptime.match_items p r with
              | Some (ms, r') => Some (m :: ms, r')
              | None => None
              end) alts s.
Proof. reflexivity. Qed.

Lemma match_items_char c p s :
  Strptime.match_items (Strptime.Char c :: p) s
  = match s with
    | c' :: s' => if bool_decide (c' = c) then Strptime.match_items p s' else None
    | [] => None
    end.
Proof. reflexivity. Qed.

Lemma strptime_HM_valid s h m :
  Strptime.strptime_HM s = Some (h, m) → 0 ≤ h < 24 ∧ 0 ≤ m < 60.
Proof.
  unfold Strptime.strptime_HM, Strptime.full_match.
  destruct (Strptime.match_items _ _) as [[ms rest]|] eqn:Hmatch; [ | discriminate].
  destruct rest; [ | discriminate].
  unfold Strptime.fmt_HM, Strptime.dir_H, Strptime.dir_M in Hmatch.
  rewrite match_items_group in Hmatch.
  apply first_alt_Some in Hmatch as (a1 & m1 & r1 & Ha1 & Hm1 & Hc).
  rewrite match_items_char in Hc.
  destruct r1 as [|c r1]; [discriminate | ].
  case_bool_decide; [ | discriminate].
  rewrite match_items_group in Hc.
  destruct (Strptime.first_alt _ _ r1) as [[ms2 r2]|] eqn:Hmatch2; [ | discriminate].
  injection Hc as <- ->.
  apply first_alt_Some in Hmatch2 as (a2 & m2 & r3 & Ha2 & Hm2 & Hc2).
  simpl in Hc2. injection Hc2 as <- ->.
  intros [= <- <-]. split.
  - eapply hour_text_bound; [exact Ha1 | by eapply match_alt_classes].
  - eapply minute_text_bound; [exact Ha2 | by eapply match_alt_classes].
Qed.

Lemma _parse_time_valid s t : _parse_time s = Ok t → valid_time t.
Proof.
  unfold _parse_time.
  destruct (Strptime.strptime_HM s) as [[h m]|] eqn:Hp; [ | discriminate].
  intros [= <-]. by apply strptime_HM_valid in Hp.
Qed.

(** ** Loops that may raise *)

Lemma for_each_app {A S} (body : S → A → result S) l1 l2 s :
  for_each body (l1 ++ l2) s = s' ← for_each body l1 s; for_each body l2 s'.
Proof.
  revert s. induction l1 as [|x l1 IH]; intros s; simpl; [done | ].
  destruct (body s x); simpl; [apply IH | done].
Qed.

(** Every pass succeeds and keeps the invariant. *)
Lemma for_each_total {A S} (body : S → A → result S) (I : S → Prop) l s :
  I s →
  (∀ s x, x ∈ l → I s → ∃ s', body s x = Ok s' ∧ I s') →
  ∃ s', for_each body l s = Ok s' ∧ I s'.
Proof.
  revert s. induction l as [|x l IH]; intros s Hs Hbody; simpl; [eauto | ].
  destruct (Hbody s x) as (s1 & -> & Hs1); [by left | done | ]. simpl.
  apply IH; [done | ]. intros s2 y Hy. apply Hbody. by right.
Qed.

Lemma for_each_invariant {A S} (body : S → A → result S) (I : S → Prop) l s s' :
  I s →
  (∀ s x s', x ∈ l → I s → body s x = Ok s' → I s') →
  for_each body l s = Ok s' → I s'.
Proof.
  revert s. induction l as [|x l IH]; intros s Hs Hbody; simpl.
  - by intros [= <-].
  - destruct (body s x) as [s1|] eqn:Hx; simpl; [ | discriminate].
    apply IH; [eapply Hbody; [by left | done | done] | ].
    intros s2 y s3 Hy. apply Hbody. by right.
Qed.

(** Every pass succeeds or raises [e], and some pass raises [e] whatever
    the state: the loop raises [e]. *)
Lemma for_each_must_raise {A S} (body : S → A → result S) (I : S → Prop) e l s :
  I s →
  (∀ s x, x ∈ l → I s → (∃ s', body s x = Ok s' ∧ I s') ∨ body s x = Raise e) →
  Exists (λ x, ∀ s, I s → body s x = Raise e) l →
  for_each body l s = Raise e.
Proof.
  intros Hs Hbody Hex. revert s Hs Hbody.
  induction Hex as [x l Hx | x l Hex IH]; intros s Hs Hbody; simpl.
  - by rewrite (Hx s Hs).
  - destruct (Hbody s x) as [(s1 & -> & Hs1) | ->]; [by left | done | | done].
    simpl. apply IH; [done | ]. intros s2 y Hy. apply Hbody. by right.
Qed.

(** An exception of the loop is an exception of some pass. *)
Lemma for_each_raise {A S} (body : S → A → result S) l s e :
  for_each body l s = Raise e → ∃ s0 x, x ∈ l ∧ body s0 x = Raise e.
Proof.
  revert s. induction l as [|x l IH]; intros s; simpl; [discriminate | ].
  destruct (body s x) as [s1|e1] eqn:Hx; simpl.
  - intros (s0 & y & Hy & Hraise)%IH. exists s0, y. split; [by right | done].
  - intros [= <-]. exists s, x. split; [by left | done].
Qed.

(** ** Insertion-ordered dictionaries *)

Section odict_facts.
Context {K V : Type} `{EqDecision K}.
Implicit Types (d : odict K V) (k : K) (v : V).

Lemma od_get_set d k k' v :
  od_get k' (od_set k v d) = if decide (k = k') then Some v else od_get k' d.
Proof.
  induction d as [|[k0 v0] d IH]; simpl.
  - done.
  - destruct (decide (k0 = k)) as [-> | Hne]; simpl.
    + by destruct (decide (k = k')).
    + rewrite IH. destruct (decide (k0 = k')) as [-> | ?]; [ | done].
      by rewrite decide_False.
Qed.

Lemma od_get_None d k : od_get k d = None ↔ k ∉ d.*1.
Proof.
  induction d as [|[k0 v0] d IH]; simpl.
  - split; [intros _; apply not_elem_of_nil | done].
  - rewrite not_elem_of_cons, <- IH.
    destruct (decide (k0 = k)) as [-> | ?].
    + split; [discriminate | intros [? _]; done].
    + split; [intros Hn; split; [congruence | exact Hn] | intros [_ Hn]; exact Hn].
Qed.

Lemma od_set_fresh d k v : k ∉ d.*1 → od_set k v d = d ++ [(k, v)].
Proof.
  induction d as [|[k0 v0] d IH]; simpl; [done | ].
  rewrite not_elem_of_cons. intros [Hne Hd].
  rewrite decide_False by done. by rewrite IH.
Qed.

Lemma od_get_last d k v : k ∉ d.*1 → od_get k (d ++ [(k, v)]) = Some v.
Proof.
  induction d as [|[k0 v0] d IH]; simpl.
  - intros _. by rewrite decide_True.
  - rewrite not_elem_of_cons. intros [Hne Hd].
    rewrite decide_False by done. by apply IH.
Qed.

Lemma od_set_last d k v v' :
  k ∉ d.*1 → od_set k v' (d ++ [(k, v)]) = d ++ [(k, v')].
Proof.
  induction d as [|[k0 v0] d IH]; simpl.
  - intros _. by rewrite decide_True.
  - rewrite not_elem_of_cons. intros [Hne Hd].
    rewrite decide_False by done. by rewrite IH.
Qed.

Lemma od_get_elem d k v : NoDup d.*1 → od_get k d = Some v ↔ (k, v) ∈ d.
Proof.
  induction d as [|[k0 v0] d IH]; simpl.
  - intros _. split; [done | intros []%elem_of_nil].
  - rewrite NoDup_cons, elem_of_cons. intros [Hk0 Hnd].
    destruct (decide (k0 = k)) as [-> | Hne].
    + split; [intros [= ->]; by left | ].
      intros [[= ->] | Hin]; [done | ].
      exfalso. apply Hk0. apply list_elem_of_fmap. by exists (k, v).
    + rewrite (IH Hnd). split; [by right | ].
      intros [[= ? ?] | ?]; [congruence | done].
Qed.

Lemma od_set_keys d k v :
  (od_set k v d).*1 = if decide (k ∈ d.*1) then d.*1 else d.*1 ++ [k].
Proof.
  induction d as [|[k0 v0] d IH].
  { simpl. try (case_decide as Hin; [by apply elem_of_nil in Hin | ]). done. }
  cbn [od_set]. destruct (decide (k0 = k)) as [-> | Hne]; rewrite !fmap_cons; cbn [fst].
  - clear IH. destruct (decide (k ∈ k :: d.*1)) as [Hin | Hin]; [done | ].
    exfalso. apply Hin. by left.
  - rewrite IH. clear IH. destruct (decide (k ∈ d.*1)) as [Hd | Hd].
    + destruct (decide (k ∈ k0 :: d.*1)) as [Hin | Hin]; [done | ].
      exfalso. apply Hin. by right.
    + destruct (decide (k ∈ k0 :: d.*1)) as [Hin | Hin]; [ | done].
      apply elem_of_cons in Hin as [-> | Hin]; done.
Qed.

Lemma od_set_NoDup d k v : NoDup d.*1 → NoDup (od_set k v d).*1.
Proof.
  intros Hnd. rewrite od_set_keys. case_decide; [done | ].
  apply NoDup_app. split; [done | ]. split; [ | apply NoDup_singleton].
  intros x Hx ->%list_elem_of_singleton. done.
Qed.
End odict_facts.

(** ** Ingestion *)

Lemma _parse_time_parses s :
  parses s = true → ∃ t, _parse_time s = Ok t ∧ valid_time t.
Proof.
  unfold parses. intros Hp.
  destruct (_parse_time s) as [t|e] eqn:Ht.
  - exists t. split; [done | by eapply _parse_time_valid].
  - unfold _parse_time in Ht. destruct (Strptime.strptime_HM s) as [[h m]|]; discriminate.
Qed.

Lemma _parse_time_not_parses s : parses s = false → _parse_time s = Raise FormatError.
Proof.
  unfold parses, _parse_time.
  destruct (Strptime.strptime_HM s) as [[h m]|]; [discriminate | done].
Qed.

Lemma Forall_or_Exists_bool {A} (f : A → bool) (l : list A) :
  Forall (λ x, f x = true) l ∨ Exists (λ x, f x = false) l.
Proof.
  induction l as [|x l [IH | IH]].
  - left. constructor.
  - destruct (f x) eqn:Hx; [left; by constructor | right; by left].
  - right. by right.
Qed.

Lemma od_get_Some_elem {K V} `{EqDecision K} (d : odict K V) k v :
  od_get k d = Some v → (k, v) ∈ d.
Proof.
  induction d as [|[k0 v0] d IH]; simpl; [discriminate | ].
  destruct (decide (k0 = k)) as [-> | ?].
  - intros [= ->]. by left.
  - intros ?. right. by apply IH.
Qed.

Lemma add_day_parses p e :
  day_parses e.2 = true →
  ∃ ws we, add_day p e = Ok (<[d_date e.2 := mk_ScheduleData (ws, we) []]> p)
           ∧ valid_time ws ∧ valid_time we.
Proof.
  unfold day_parses, add_day. rewrite andb_true_iff. intros [Hs He].
  destruct (_parse_time_parses _ Hs) as (ws & -> & ?).
  destruct (_parse_time_parses _ He) as (we & -> & ?).
  exists ws, we. done.
Qed.

Lemma add_day_not_parses p e :
  day_parses e.2 = false → add_day p e = Raise FormatError.
Proof.
  unfold day_parses, add_day. rewrite andb_false_iff. intros [Hs | He].
  - by rewrite (_parse_time_not_parses _ Hs).
  - rewrite (_parse_time_not_parses _ He).
    destruct (_parse_time_cases (d_start e.2)) as [[t ->] | ->]; done.
Qed.

Lemma valid_model_insert p k sd :
  valid_model p → valid_day sd → valid_model (<[k := sd]> p).
Proof.
  intros Hp Hsd k' sd'. rewrite lookup_insert. case_decide.
  - by intros [= <-].
  - apply Hp.
Qed.

(** The first loop keeps every key and adds the date of every day. *)
Lemma add_days_dom l p p' :
  for_each add_day l p = Ok p' →
  (∀ k, is_Some (p !! k) → is_Some (p' !! k)) ∧
  (∀ e, e ∈ l → is_Some (p' !! d_date e.2)).
Proof.
  revert p. induction l as [|e l IH]; intros p; simpl.
  - intros [= <-]. split; [done | intros e []%elem_of_nil].
  - destruct (add_day p e) as [p1|] eqn:He; simpl; [ | discriminate].
    intros [Hkeep Hnew]%IH.
    assert (Hp1 : p1 = <[d_date e.2 := from_option id (mk_ScheduleData (0:h0, 0:h0) [])
                                         (p1 !! d_date e.2)]> p).
    { unfold add_day in He.
      destruct (_parse_time (d_start e.2)); simpl in He; [ | discriminate].
      destruct (_parse_time (d_end e.2)); simpl in He; [ | discriminate].
      injection He as <-. by rewrite lookup_insert_eq. }
    split.
    + intros k Hk. apply Hkeep. rewrite Hp1, lookup_insert. by case_decide.
    + intros e' [-> | He']%elem_of_cons; [ | by apply Hnew].
      apply Hkeep. rewrite Hp1. rewrite lookup_insert_eq. eauto.
Qed.

Section second_loop.
Variable days_by_id : odict Z DayRecord.

Lemma add_slot_unknown p slot :
  od_mem (s_day_id slot) days_by_id = false → add_slot days_by_id p slot = Ok p.
Proof.
  unfold od_mem, add_slot.
  destruct (od_get (s_day_id slot) days_by_id); [discriminate | done].
Qed.

Lemma add_slot_not_parses p slot :
  od_mem (s_day_id slot) days_by_id = true → slot_parses slot = false →
  add_slot days_by_id p slot = Raise FormatError.
Proof.
  unfold od_mem, add_slot, slot_parses.
  destruct (od_get (s_day_id slot) days_by_id); [ | discriminate].
  intros _. rewrite andb_false_iff. intros [Hs | He].
  - by rewrite (_parse_time_not_parses _ Hs).
  - rewrite (_parse_time_not_parses _ He).
    destruct (_parse_time_cases (s_start slot)) as [[t ->] | ->]; done.
Qed.

Lemma add_slot_accepted p slot :
  slots_invariant days_by_id p → slot_accepted days_by_id slot = true →
  ∃ p', add_slot days_by_id p slot = Ok p' ∧ slots_invariant days_by_id p'.
Proof.
  intros [Hvalid Hdom]. unfold slot_accepted. rewrite orb_true_iff, negb_true_iff.
  destruct (od_mem (s_day_id slot) days_by_id) eqn:Hmem.
  2:{ intros _. exists p. split; [by apply add_slot_unknown | done]. }
  intros [? | Hparse]; [discriminate | ].
  unfold od_mem in Hmem. unfold add_slot.
  destruct (od_get (s_day_id slot) days_by_id) as [day_info|] eqn:Hget; [ | discriminate].
  apply od_get_Some_elem in Hget.
  unfold slot_parses in Hparse. apply andb_true_iff in Hparse as [Hs He].
  destruct (_parse_time_parses _ Hs) as (bs & -> & ?).
  destruct (_parse_time_parses _ He) as (be & -> & ?). simpl.
  destruct (Hdom _ Hget) as [sd Hsd]. simpl in Hsd. rewrite Hsd.
  eexists. split; [reflexivity | ]. split.
  - apply valid_model_insert; [done | ].
    destruct (Hvalid _ _ Hsd) as [Hw Hb]. split; [done | ]. simpl.
    apply Forall_app. split; [done | ]. constructor; [by split | constructor].
  - intros e He'. rewrite lookup_insert. case_decide; [eauto | by apply Hdom].
Qed.
End second_loop.

Lemma sort_by_start_Forall (P : TimeTuple → Prop) l :
  Forall P l → Forall P (sort_by_start l).
Proof.
  induction 1 as [|x l Hx Hl IH]; simpl; [constructor | ].
  apply Forall_forall. intros y [-> | Hy]%insert_by_start_elem; [done | ].
  rewrite Forall_forall in IH. by apply IH.
Qed.

Lemma valid_model_sorted p : valid_model p → valid_model (sort_day <$> p).
Proof.
  intros Hp k sd. rewrite lookup_fmap.
  destruct (p !! k) as [sd'|] eqn:Hk; simpl; [ | discriminate].
  intros [= <-]. destruct (Hp _ _ Hk) as [Hw Hb].
  split; [done | ]. by apply sort_by_start_Forall.
Qed.

(** Every retained day and every accepted timeslot parses: the model is
    built. *)
Lemma fetch_Ok data :
  Forall (λ e, day_parses e.2 = true) (days_by_id_of (days data)) →
  Forall (λ slot, slot_accepted (days_by_id_of (days data)) slot = true)
         (timeslots data) →
  ∃ self, _fetch_and_process_data data = Ok self ∧ valid_model self.
Proof.
  intros Hdays Hslots. unfold _fetch_and_process_data.
  set (dbi := days_by_id_of (days data)) in *.
  destruct (for_each_total add_day valid_model dbi ∅) as (p1 & Hp1 & Hv1).
  { intros k sd. by rewrite lookup_empty. }
  { intros p e He Hp. rewrite Forall_forall in Hdays.
    destruct (add_day_parses p e (Hdays _ He)) as (ws & we & -> & ? & ?).
    eexists. split; [done | ]. apply valid_model_insert; [done | ].
    split; [done | constructor]. }
  rewrite Hp1. simpl.
  destruct (for_each_total (add_slot dbi) (slots_invariant dbi) (timeslots data) p1)
    as (p2 & Hp2 & Hv2 & _).
  { split; [done | ]. by apply (add_days_dom _ _ _ Hp1). }
  { intros p slot Hslot Hp. rewrite Forall_forall in Hslots.
    by apply add_slot_accepted; [ | apply Hslots]. }
  rewrite Hp2. simpl. eexists. split; [reflexivity | ].
  by apply valid_model_sorted.
Qed.

(** A retained day or an accepted timeslot does not parse: ingestion
    raises the error of [strptime]. *)
Lemma fetch_Raise data :
  Exists (λ e, day_parses e.2 = false) (days_by_id_of (days data)) ∨
  Exists (λ slot, slot_accepted (days_by_id_of (days data)) slot = false)
         (timeslots data) →
  _fetch_and_process_data data = Raise FormatError.
Proof.
  unfold _fetch_and_process_data.
  set (dbi := days_by_id_of (days data)) in *. intros Hbad.
  destruct (Forall_or_Exists_bool (λ e : Z * DayRecord, day_parses e.2) dbi)
    as [Hdays | Hdays].
  - destruct Hbad as [Hbad | Hbad].
    { exfalso. apply Exists_exists in Hbad as (e & He & Hfalse).
      rewrite Forall_forall in Hdays. specialize (Hdays _ He). simpl in *. congruence. }
    destruct (for_each_total add_day valid_model dbi ∅) as (p1 & Hp1 & Hv1).
    { intros k sd. by rewrite lookup_empty. }
    { intros p e He Hp. rewrite Forall_forall in Hdays.
      destruct (add_day_parses p e (Hdays _ He)) as (ws & we & -> & ? & ?).
      eexists. split; [done | ]. apply valid_model_insert; [done | ].
      split; [done | constructor]. }
    rewrite Hp1. simpl.
    rewrite (for_each_must_raise (add_slot dbi) (slots_invariant dbi) FormatError
               (timeslots data) p1); [done | | | ].
    + split; [done | ]. by apply (add_days_dom _ _ _ Hp1).
    + intros p slot _ Hp.
      destruct (slot_accepted dbi slot) eqn:Hacc.
      * left. by apply add_slot_accepted.
      * right. unfold slot_accepted in Hacc.
        apply orb_false_iff in Hacc as [Hmem%negb_false_iff Hparse].
        by apply add_slot_not_parses.
    + eapply Exists_impl; [exact Hbad | ]. intros slot Hacc p _.
      unfold slot_accepted in Hacc.
      apply orb_false_iff in Hacc as [Hmem%negb_false_iff Hparse].
      by apply add_slot_not_parses.
  - rewrite (for_each_must_raise add_day (λ _, True) FormatError dbi ∅); [done | done | | ].
    + intros p e _ _. destruct (day_parses e.2) eqn:He.
      * left. destruct (add_day_parses p e He) as (ws & we & -> & _). eauto.
      * right. by apply add_day_not_parses.
    + eapply Exists_impl; [exact Hdays | ]. intros e He p _. simpl in He.
      by apply add_day_not_parses.
Qed.

Lemma fetched_valid data self :
  _fetch_and_process_data data = Ok self → valid_model self.
Proof.
  intros Hf.
  destruct (Forall_or_Exists_bool (λ e : Z * DayRecord, day_parses e.2)
              (days_by_id_of (days data))) as [Hdays | Hdays].
  2:{ rewrite fetch_Raise in Hf; [discriminate | by left]. }
  destruct (Forall_or_Exists_bool (slot_accepted (days_by_id_of (days data)))
              (timeslots data)) as [Hslots | Hslots].
  2:{ rewrite fetch_Raise in Hf; [discriminate | by right]. }
  destruct (fetch_Ok data Hdays Hslots) as (self' & Hf' & Hv).
  rewrite Hf in Hf'. by injection Hf' as <-.
Qed.

(** [days_by_id] keeps, for each identifier, the last day record that
    carries it. *)
Lemma days_by_id_of_snoc ds d :
  days_by_id_of (ds ++ [d]) = od_set (d_id d) d (days_by_id_of ds).
Proof. unfold days_by_id_of. by rewrite fold_left_app. Qed.

Lemma days_by_id_get ds i :
  od_get i (days_by_id_of ds) = last (filter (λ d, d_id d = i) ds).
Proof.
  induction ds as [|d ds IH] using rev_ind; [done | ].
  rewrite days_by_id_of_snoc, od_get_set, filter_app, IH.
  rewrite filter_cons, filter_nil. case_decide.
  - by rewrite last_snoc.
  - by rewrite app_nil_r.
Qed.

Lemma days_by_id_NoDup ds : NoDup (days_by_id_of ds).*1.
Proof.
  induction ds as [|d ds IH] using rev_ind; [constructor | ].
  rewrite days_by_id_of_snoc. by apply od_set_NoDup.
Qed.

Lemma days_by_id_mem ds i :
  od_mem i (days_by_id_of ds) = true ↔ ∃ d, d ∈ ds ∧ d_id d = i.
Proof.
  unfold od_mem. rewrite days_by_id_get.
  destruct (last (filter (λ d, d_id d = i) ds)) as [d|] eqn:Hlast.
  - split; [intros _ | done]. exists d.
    apply last_Some in Hlast as [l Hl].
    assert (Hin : d ∈ filter (λ d, d_id d = i) ds)
      by (rewrite Hl; apply elem_of_app; right; by left).
    apply list_elem_of_filter in Hin as [? ?]. done.
  - split; [discriminate | ]. intros (d & Hd & Hi). exfalso.
    apply last_None in Hlast.
    assert (Hin : d ∈ filter (λ d, d_id d = i) ds) by (by apply list_elem_of_filter).
    rewrite Hlast in Hin. by apply elem_of_nil in Hin.
Qed.

(** C4, as stated, fails: a record with a time that does not parse does
    not stop the construction when the record is never read, which is the
    case of a day record replaced by a later one of the same identifier
    and of a timeslot with an unknown day identifier. *)
Lemma C4_counterexample :
  _parse_time "9-00" = Raise FormatError ∧
  _fetch_and_process_data shadowed_data
    = Ok {[ "2024-10-10" := mk_ScheduleData (9:h0, 18:h0) [] ]} ∧
  _fetch_and_process_data orphan_data
    = Ok {[ "2024-10-10" := mk_ScheduleData (9:h0, 18:h0) [] ]}.
Proof. split; [reflexivity | ]. split; vm_compute; reflexivity. Qed.

(** C4, amended. The day records that are read are the last ones of each
    identifier, the timeslots that are read are those whose [day_id] is the
    identifier of some day record. Ingestion raises [FormatError] exactly
    when a record that is read holds a start or end time that does not
    parse, and then returns no model at all; otherwise it returns a model.
    A timeslot whose [day_id] matches no day record is dropped without an
    error, whatever its times are: the outcome is that of the payload
    without it. *)
Theorem C4_ingestion_fail_fast data :
  let days_by_id := days_by_id_of (days data) in
  (∀ i d, (i, d) ∈ days_by_id ↔ last (filter (λ x, d_id x = i) (days data)) = Some d) ∧
  (∀ i, od_mem i days_by_id = true ↔ ∃ d, d ∈ days data ∧ d_id d = i) ∧
  (_fetch_and_process_data data = Raise FormatError ↔
     (∃ e, e ∈ days_by_id ∧ day_parses e.2 = false) ∨
     (∃ slot, slot ∈ timeslots data ∧ od_mem (s_day_id slot) days_by_id = true
              ∧ slot_parses slot = false)) ∧
  ((∃ self, _fetch_and_process_data data = Ok self) ∨
   _fetch_and_process_data data = Raise FormatError) ∧
  (∀ ts1 slot ts2,
     timeslots data = ts1 ++ slot :: ts2 →
     od_mem (s_day_id slot) days_by_id = false →
     _fetch_and_process_data data
     = _fetch_and_process_data (mk_Data (days data) (ts1 ++ ts2))).
Proof.
  intros days_by_id. subst days_by_id.
  set (dbi := days_by_id_of (days data)).
  assert (Hcases :
    (Forall (λ e : Z * DayRecord, day_parses e.2 = true) dbi ∧
     Forall (λ slot, slot_accepted dbi slot = true) (timeslots data)) ∨
    (Exists (λ e : Z * DayRecord, day_parses e.2 = false) dbi ∨
     Exists (λ slot, slot_accepted dbi slot = false) (timeslots data))).
  { destruct (Forall_or_Exists_bool (λ e : Z * DayRecord, day_parses e.2) dbi);
      [ | by right; left].
    destruct (Forall_or_Exists_bool (slot_accepted dbi) (timeslots data));
      [by left | by right; right]. }
  split; [ | split; [ | split; [ | split]]].
  - intros i d. unfold dbi. rewrite <- days_by_id_get.
    symmetry. apply od_get_elem, days_by_id_NoDup.
  - intros i. apply days_by_id_mem.
  - split.
    + intros Hraise. destruct Hcases as [[Hdays Hslots] | [Hbad | Hbad]].
      * destruct (fetch_Ok data Hdays Hslots) as (self & Hself & _). congruence.
      * left. apply Exists_exists in Hbad. exact Hbad.
      * right. apply Exists_exists in Hbad as (slot & Hin & Hacc).
        unfold slot_accepted in Hacc.
        apply orb_false_iff in Hacc as [Hmem%negb_false_iff Hparse]. eauto.
    + intros Hbad. apply fetch_Raise. fold dbi.
      destruct Hbad as [Hbad | (slot & Hin & Hmem & Hparse)].
      * left. apply Exists_exists. exact Hbad.
      * right. apply Exists_exists. exists slot. split; [done | ].
        unfold slot_accepted. by rewrite Hmem, Hparse.
  - destruct Hcases as [[Hdays Hslots] | Hbad].
    + left. destruct (fetch_Ok data Hdays Hslots) as (self & Hself & _). eauto.
    + right. by apply fetch_Raise.
  - intros ts1 slot ts2 Hts Hmem. unfold _fetch_and_process_data. simpl.
    fold dbi. rewrite Hts.
    destruct (for_each add_day dbi ∅) as [p1|]; simpl; [ | done].
    rewrite !for_each_app.
    destruct (for_each (add_slot dbi) ts1 p1) as [p2|]; simpl; [ | done].
    by rewrite (add_slot_unknown _ _ _ Hmem).
Qed.

Lemma C4_witness :
  _fetch_and_process_data malformed_data = Raise FormatError ∧
  _fetch_and_process_data orphan_data
  = _fetch_and_process_data (mk_Data (days orphan_data) []).
Proof.
  destruct (C4_ingestion_fail_fast malformed_data) as (_ & _ & Hraise & _).
  destruct (C4_ingestion_fail_fast orphan_data) as (_ & _ & _ & _ & Hdrop).
  split.
  - apply Hraise. left. exists (1, mk_DayRecord 1 "2024-10-10" "9-00" "18:00").
    split; [by left | reflexivity].
  - apply (Hdrop [] (mk_SlotRecord 1 99 "9-00" "12:00") []); reflexivity.
Defined.

(** ** Search for slots of a given duration *)

Lemma sweep_closed (P : time → Prop) workEnd busy cur :
  P cur → P workEnd → Forall (λ b, P b.1 ∧ P b.2) busy →
  Forall (λ s, P s.1 ∧ P s.2) (sweep cur busy workEnd).
Proof.
  intros Hcur Hend Hbusy. revert cur Hcur.
  induction Hbusy as [|[bs be] busy [Hbs Hbe] Hbusy IH]; intros cur Hcur; simpl.
  - case_decide; repeat constructor; done.
  - simpl in *. apply Forall_app. split.
    + case_decide; repeat constructor; done.
    + apply IH. unfold time_max. by case_decide.
Qed.

Lemma free_slots_valid sd : valid_day sd → Forall valid_slot (free_slots_of sd).
Proof.
  intros [[Hws Hwe] Hb]. rewrite free_slots_of_sweep.
  by apply (sweep_closed valid_time).
Qed.

Section search.
Variables (self : gmap string ScheduleData) (n : Z) (required_duration : timedelta).
Hypothesis Hrequired : timedelta_minutes n = Ok required_duration.

Lemma keep_if_long_short date_str s slot :
  valid_slot slot → ¬ long_enough n slot →
  keep_if_long required_duration date_str s slot = Ok s.
Proof.
  destruct slot as [fs fe]. intros [Hs He] Hshort. unfold keep_if_long.
  destruct (free_duration_spec fs fe Hs He) as (td & Htd & _). rewrite Htd. simpl.
  rewrite decide_False; [done | ].
  by rewrite (free_duration_ge fs fe td n required_duration).
Qed.

Lemma keep_if_long_long date_str s acc slot :
  valid_slot slot → long_enough n slot → date_str ∉ s.*1 →
  keep_if_long required_duration date_str (s ++ entry date_str acc) slot
  = Ok (s ++ entry date_str (acc ++ [slot])).
Proof.
  destruct slot as [fs fe]. intros [Hs He] Hlong Hfresh. unfold keep_if_long.
  destruct (free_duration_spec fs fe Hs He) as (td & Htd & _). rewrite Htd. simpl.
  rewrite decide_True
    by (by rewrite (free_duration_ge fs fe td n required_duration)).
  destruct acc as [|a acc]; simpl.
  - rewrite app_nil_r. unfold od_mem.
    rewrite (proj2 (od_get_None s date_str) Hfresh).
    rewrite od_set_fresh by done. unfold od_sub.
    rewrite od_get_last by done. simpl. by rewrite od_set_last.
  - unfold od_mem, od_sub. repeat (rewrite od_get_last by done; simpl).
    by rewrite od_set_last.
Qed.

Lemma inner_loop date_str free s acc :
  Forall valid_slot free → date_str ∉ s.*1 →
  for_each (keep_if_long required_duration date_str) free (s ++ entry date_str acc)
  = Ok (s ++ entry date_str (acc ++ filter (long_enough n) free)).
Proof.
  intros Hvalid Hfresh. revert acc.
  induction Hvalid as [|slot free Hslot Hvalid IH]; intros acc; simpl.
  - by rewrite app_nil_r.
  - rewrite filter_cons. destruct (decide (long_enough n slot)) as [Hlong | Hshort].
    + rewrite keep_if_long_long by done. simpl.
      rewrite IH. by rewrite <- app_assoc.
    + rewrite keep_if_long_short by done. simpl. apply IH.
Qed.

Lemma get_free_slots_free_of date_str :
  well_formed_date date_str = true →
  get_free_slots self date_str = Ok (free_of self date_str).
Proof.
  intros Hd. unfold get_free_slots, free_of.
  rewrite (_get_day_schedule_valid _ _ Hd). by destruct (self !! date_str).
Qed.

Lemma entry_keys k l x : x ∈ (entry k l).*1 → x = k.
Proof.
  destruct l; simpl; [intros []%elem_of_nil | ].
  by intros ->%list_elem_of_singleton.
Qed.

Lemma outer_loop keys s :
  valid_model self →
  NoDup keys →
  Forall (λ k, well_formed_date k = true ∧ k ∉ s.*1) keys →
  for_each
    (λ suitable_slots date_str,
       free_slots_on_day ← get_free_slots self date_str;
       for_each (keep_if_long required_duration date_str)
                free_slots_on_day suitable_slots)
    keys s
  = Ok (s ++ found self n keys).
Proof.
  intros Hmodel Hnd. revert s.
  induction Hnd as [|k keys Hk Hnd IH]; intros s Hkeys; simpl.
  - by rewrite app_nil_r.
  - apply Forall_cons in Hkeys as [[Hwf Hfresh] Hkeys].
    rewrite get_free_slots_free_of by done. simpl.
    pose proof (inner_loop k (free_of self k) s []) as Hinner.
    simpl in Hinner. rewrite app_nil_r in Hinner. rewrite Hinner; [ | | done].
    + simpl. rewrite IH; [by rewrite <- app_assoc | ].
      apply Forall_forall. intros k' Hk'. rewrite Forall_forall in Hkeys.
      destruct (Hkeys _ Hk') as [? Hs]. split; [done | ].
      rewrite fmap_app, elem_of_app. intros [? | ->%entry_keys]; done.
    + unfold free_of. destruct (self !! k) as [sd|] eqn:Hsd; [ | constructor].
      apply free_slots_valid. by eapply Hmodel.
Qed.

Lemma found_elem keys k l :
  (k, l) ∈ found self n keys
  ↔ k ∈ keys ∧ l = filter (long_enough n) (free_of self k) ∧ l ≠ [].
Proof.
  unfold found. induction keys as [|k0 keys IH]; simpl.
  - rewrite !elem_of_nil. tauto.
  - rewrite elem_of_app, IH, elem_of_cons.
    destruct (filter (long_enough n) (free_of self k0)) as [|x l0] eqn:Hf; simpl.
    + rewrite elem_of_nil. split; [tauto | ].
      intros ([-> | ?] & -> & ?); [congruence | tauto].
    + rewrite list_elem_of_singleton. split.
      * intros [[= -> ->] | ?]; [ | tauto]. rewrite Hf. split; [by left | done].
      * intros ([-> | ?] & -> & ?); [left; by rewrite Hf | tauto].
Qed.

Lemma found_keys_sorted (R : relation string) keys :
  StronglySorted R keys → StronglySorted R (found self n keys).*1.
Proof.
  unfold found. induction 1 as [|k keys Hkeys IH Hk]; simpl; [constructor | ].
  rewrite fmap_app.
  destruct (filter (long_enough n) (free_of self k)) as [|x l0]; simpl; [done | ].
  constructor; [done | ]. apply Forall_forall. intros k' Hk'.
  apply list_elem_of_fmap in Hk' as ([k'' l'] & -> & Hin). simpl.
  apply found_elem in Hin as [Hin _].
  rewrite Forall_forall in Hk. by apply Hk.
Qed.
End search.

Lemma sorted_keys_elem (self : gmap string ScheduleData) k :
  k ∈ sorted_keys self ↔ is_Some (self !! k).
Proof.
  unfold sorted_keys. rewrite merge_sort_Permutation, list_elem_of_fmap. split.
  - intros ([k' sd] & -> & Hin). apply elem_of_map_to_list in Hin. eauto.
  - intros [sd Hsd]. exists (k, sd). split; [done | by apply elem_of_map_to_list].
Qed.

Lemma sorted_keys_NoDup (self : gmap string ScheduleData) : NoDup (sorted_keys self).
Proof.
  unfold sorted_keys. rewrite merge_sort_Permutation. apply NoDup_fst_map_to_list.
Qed.

Lemma StronglySorted_strict {A} (R : relation A) `{!AntiSymm (=) R} (l : list A) :
  StronglySorted R l → NoDup l → StronglySorted (strict R) l.
Proof.
  induction 1 as [|x l Hl IH Hx]; [constructor | ].
  rewrite NoDup_cons. intros [Hnotin Hnd]. constructor; [by apply IH | ].
  apply Forall_forall. intros y Hy. rewrite Forall_forall in Hx.
  split; [by apply Hx | ]. intros Hyx.
  assert (x = y) as -> by (apply (anti_symm R); [by apply Hx | done]). done.
Qed.

Lemma StronglySorted_NoDup_strict {A} (R : relation A) (l : list A) :
  StronglySorted (strict R) l → NoDup l.
Proof.
  induction 1 as [|x l Hl IH Hx]; constructor; [ | done].
  intros Hin. rewrite Forall_forall in Hx. destruct (Hx _ Hin) as [Hxx Hnot]. done.
Qed.

Lemma sorted_keys_ascending (self : gmap string ScheduleData) :
  StronglySorted (strict String.le) (sorted_keys self).
Proof.
  apply StronglySorted_strict; [apply _ | | apply sorted_keys_NoDup].
  unfold sorted_keys. apply StronglySorted_merge_sort; apply _.
Qed.

Lemma timedelta_new_raise days seconds e :
  timedelta_new days seconds = Raise e → e = OverflowError.
Proof. unfold timedelta_new. case_decide; [by intros [= <-] | discriminate]. Qed.

Lemma keep_if_long_raise required_duration date_str s slot e :
  keep_if_long required_duration date_str s slot = Raise e →
  e = OverflowError ∨ e = KeyError.
Proof.
  destruct slot as [fs fe]. unfold keep_if_long.
  destruct (datetime_sub _ _) as [td|e'] eqn:Hsub; simpl.
  - case_decide; [ | discriminate]. unfold od_sub.
    destruct (od_get _ _); simpl; [discriminate | intros [= <-]; by right].
  - intros [= <-]. left. by eapply timedelta_new_raise.
Qed.

Lemma keep_if_long_total required_duration date_str s slot :
  valid_slot slot → ∃ s', keep_if_long required_duration date_str s slot = Ok s'.
Proof.
  destruct slot as [fs fe]. intros [Hs He]. unfold keep_if_long.
  destruct (dummy_sub_Ok fs fe Hs He) as [td ->]. simpl.
  case_decide; [ | eauto]. unfold od_mem, od_sub.
  destruct (od_get date_str s) as [l|] eqn:Hget.
  - rewrite Hget. simpl. eauto.
  - rewrite od_get_set, decide_True by done. simpl. eauto.
Qed.

Lemma get_free_slots_raise self date_str e :
  get_free_slots self date_str = Raise e →
  e = InvalidDateFormat ∧ well_formed_date date_str = false.
Proof.
  unfold get_free_slots. destruct (well_formed_date date_str) eqn:Hd.
  - rewrite (_get_day_schedule_valid _ _ Hd). simpl.
    destruct (self !! date_str); discriminate.
  - rewrite (_get_day_schedule_invalid _ _ Hd). simpl. by intros [= <-].
Qed.

(** C5, as stated, fails: with a positive duration the search still
    raises when a key of the model is no well-formed date (the dates of
    the payload are stored as they come) and when the duration is beyond
    what [timedelta] holds; and the dates come in the order of the strings,
    which is not the order of the dates when a date is not zero-padded. *)
Lemma C5_counterexample :
  (_fetch_and_process_data slash_data = Ok slash_schedule ∧
   find_available_slots_for_duration slash_schedule 60 = Raise InvalidDateFormat) ∧
  find_available_slots_for_duration mock_schedule 1440000000000 = Raise OverflowError ∧
  (_fetch_and_process_data unpadded_data = Ok unpadded_schedule ∧
   find_available_slots_for_duration unpadded_schedule 60
   = Ok [ ("2024-10-01", [(9:h0, 18:h0)]); ("2024-9-30", [(9:h0, 18:h0)]) ] ∧
   strptime_date "2024-9-30" = Ok (mk_date 2024 9 30) ∧
   strptime_date "2024-10-01" = Ok (mk_date 2024 10 1) ∧
   toordinal (mk_date 2024 9 30) < toordinal (mk_date 2024 10 1)).
Proof.
  split; [split; vm_compute; reflexivity | ].
  split; [vm_compute; reflexivity | ].
  repeat split; vm_compute; reflexivity.
Qed.

Example toordinal_dummy_date : toordinal dummy_date = 730120.
Proof. reflexivity. Qed.

(** C5, amended. [find_available_slots_for_duration] raises
    [InvalidDuration] exactly when the duration is not positive. A
    positive duration of more than 1439999999999 minutes raises
    [OverflowError], and a positive duration within that bound raises
    [InvalidDateFormat] when some key of the model is no well-formed date
    string. Otherwise, on a constructed model, the result lists the keys in
    strictly ascending order of the strings, and holds for a string [k] the
    list [l] exactly when [k] is a key of the model and [l] is the
    non-empty list of those free slots of [k], in the order of
    [get_free_slots], whose span in minutes is at least the duration; a
    date with no such slot is absent. *)
Theorem C5_find_available_slots data self n :
  _fetch_and_process_data data = Ok self →
  (find_available_slots_for_duration self n = Raise InvalidDuration ↔ n ≤ 0) ∧
  (max_timedelta_minutes < n →
   find_available_slots_for_duration self n = Raise OverflowError) ∧
  (0 < n ≤ max_timedelta_minutes →
   (∃ k, is_Some (self !! k) ∧ well_formed_date k = false) →
   find_available_slots_for_duration self n = Raise InvalidDateFormat) ∧
  (0 < n ≤ max_timedelta_minutes →
   map_Forall (λ k _, well_formed_date k = true) self →
   ∃ res,
     find_available_slots_for_duration self n = Ok res ∧
     StronglySorted (strict String.le) res.*1 ∧
     ∀ k l, od_get k res = Some l ↔
            ∃ free, is_Some (self !! k) ∧ get_free_slots self k = Ok free ∧
                    l = filter (long_enough n) free ∧ l ≠ []).
Proof.
  intros Hfetch. pose proof (fetched_valid _ _ Hfetch) as Hmodel.
  unfold find_available_slots_for_duration.
  split; [ | split; [ | split]].
  - case_decide as Hn; [done | ]. split; [ | lia]. intros Hraise. exfalso.
    destruct (timedelta_minutes n) as [req|e] eqn:Hreq; simpl in Hraise.
    + apply for_each_raise in Hraise as (s0 & k & _ & Hraise).
      destruct (get_free_slots self k) as [free|e] eqn:Hfree; simpl in Hraise.
      * apply for_each_raise in Hraise as (s1 & slot & _ & Hraise).
        apply keep_if_long_raise in Hraise as [? | ?]; discriminate.
      * injection Hraise as ->. by apply get_free_slots_raise in Hfree as [? _].
    + injection Hraise as ->. by apply timedelta_new_raise in Hreq.
  - intros Hn. rewrite decide_False by (unfold max_timedelta_minutes in Hn; lia).
    by rewrite timedelta_minutes_overflow.
  - intros Hn (kbad & Hkey & Hbad). rewrite decide_False by lia.
    destruct (timedelta_minutes_Ok n Hn) as [req ->]. simpl.
    apply (for_each_must_raise _ (λ _, True)); [done | | ].
    + intros s k Hk _. destruct (well_formed_date k) eqn:Hwf.
      * left. rewrite (get_free_slots_free_of self k Hwf). simpl.
        destruct (for_each_total (keep_if_long req k) (λ _, True) (free_of self k) s)
          as (s' & -> & _); [done | | eauto].
        intros s1 slot Hslot _.
        assert (Hv : valid_slot slot).
        { unfold free_of in Hslot. destruct (self !! k) as [sd|] eqn:Hsd.
          - pose proof (free_slots_valid sd (Hmodel _ _ Hsd)) as Hall.
            rewrite Forall_forall in Hall. by apply Hall.
          - by apply elem_of_nil in Hslot. }
        destruct (keep_if_long_total req k s1 slot Hv) as [s2 ->]. eauto.
      * right. unfold get_free_slots.
        by rewrite (_get_day_schedule_invalid _ _ Hwf).
    + apply Exists_exists. exists kbad. split; [by apply sorted_keys_elem | ].
      intros s _. unfold get_free_slots.
      by rewrite (_get_day_schedule_invalid _ _ Hbad).
  - intros Hn Hkeys. rewrite decide_False by lia.
    destruct (timedelta_minutes_Ok n Hn) as [req Hreq]. rewrite Hreq. simpl.
    exists (found self n (sorted_keys self)).
    split; [ | split].
    + rewrite (outer_loop self n req Hreq (sorted_keys self) []); [done | done | | ].
      * apply sorted_keys_NoDup.
      * apply Forall_forall. intros k [sd Hsd]%sorted_keys_elem.
        split; [by apply (Hkeys _ _ Hsd) | apply not_elem_of_nil].
    + apply found_keys_sorted, sorted_keys_ascending.
    + intros k l. rewrite od_get_elem.
      2:{ eapply StronglySorted_NoDup_strict, found_keys_sorted, sorted_keys_ascending. }
      rewrite found_elem, sorted_keys_elem. split.
      * intros ([sd Hsd] & -> & Hne). exists (free_of self k).
        split; [eauto | ]. split; [ | done].
        apply get_free_slots_free_of. by apply (Hkeys _ _ Hsd).
      * intros (free & [sd Hsd] & Hfree & -> & Hne).
        rewrite (get_free_slots_free_of self k) in Hfree by (by apply (Hkeys _ _ Hsd)).
        injection Hfree as <-. eauto.
Qed.

Lemma C5_witness :
  find_available_slots_for_duration mock_schedule 0 = Raise InvalidDuration ∧
  find_available_slots_for_duration mock_schedule 1440000000000 = Raise OverflowError ∧
  find_available_slots_for_duration slash_schedule 60 = Raise InvalidDateFormat ∧
  ∃ res,
    find_available_slots_for_duration mock_schedule 60 = Ok res ∧
    od_get "2024-10-11" res = Some [(8:h0, 9:h30); (16:h0, 17:h0)].
Proof.
  assert (Hf : _fetch_and_process_data MOCK_API_DATA = Ok mock_schedule)
    by (vm_compute; reflexivity).
  assert (Hs : _fetch_and_process_data slash_data = Ok slash_schedule)
    by (vm_compute; reflexivity).
  split; [ | split; [ | split]].
  - apply (C5_find_available_slots MOCK_API_DATA mock_schedule 0 Hf). lia.
  - apply (C5_find_available_slots MOCK_API_DATA mock_schedule 1440000000000 Hf).
    unfold max_timedelta_minutes. lia.
  - apply (C5_find_available_slots slash_data slash_schedule 60 Hs).
    + unfold max_timedelta_minutes. lia.
    + exists "2024/10/10". split; [vm_compute; eauto | reflexivity].
  - destruct (C5_find_available_slots MOCK_API_DATA mock_schedule 60 Hf)
      as (_ & _ & _ & Hok).
    destruct Hok as (res & Hres & _ & Hget).
    + unfold max_timedelta_minutes. lia.
    + compute_done.
    + exists res. split; [exact Hres | ]. apply Hget.
      exists [(8:h0, 9:h30); (16:h0, 17:h0)].
      split; [vm_compute; eauto | ].
      split; [vm_compute; reflexivity | ].
      split; [vm_compute; reflexivity | discriminate].
Defined.

(** ** Free and busy slots tile the working hours *)

Lemma coverage_app t l1 l2 :
  coverage t (l1 ++ l2) = (coverage t l1 + coverage t l2)%nat.
Proof. unfold coverage. by rewrite filter_app, length_app. Qed.

Lemma coverage_cons t s l :
  coverage t (s :: l) = ((if decide (covers t s) then 1 else 0) + coverage t l)%nat.
Proof. unfold coverage. rewrite filter_cons. by case_decide. Qed.

Lemma coverage_nil t : coverage t [] = 0%nat.
Proof. done. Qed.

Lemma coverage_middle t l1 s l2 :
  coverage t (l1 ++ s :: l2)
  = ((if decide (covers t s) then 1 else 0) + coverage t (l1 ++ l2))%nat.
Proof. rewrite !coverage_app, coverage_cons. lia. Qed.

Lemma sweep_tiles workEnd busy cur t :
  time_le cur workEnd →
  Forall (λ b, time_le b.1 b.2 ∧ time_le b.2 workEnd ∧
               (time_le cur b.1 ∨ b.1 = b.2)) busy →
  StronglySorted (λ a b, time_le a.2 b.1 ∨ b.1 = b.2) busy →
  coverage t (sweep cur busy workEnd ++ busy)
  = if decide (covers t (cur, workEnd)) then 1%nat else 0%nat.
Proof.
  intros Hcur Hbusy Hsorted. revert cur Hcur Hbusy.
  induction Hsorted as [|[bs be] busy Hsorted IH Hb]; intros cur Hcur Hbusy.
  - simpl. rewrite app_nil_r. unfold covers. simpl.
    case_decide; rewrite ?coverage_cons, ?coverage_nil; unfold covers; simpl;
      repeat case_decide; time_cases.
  - apply Forall_cons in Hbusy as [(Hproper & Hend & Hstart) Hbusy]. simpl in *.
    rewrite <- app_assoc, coverage_app, coverage_middle.
    rewrite (IH (time_max cur be)); clear IH.
    + clear Hsorted Hb Hbusy. unfold covers. simpl.
      destruct (decide (time_lt cur bs));
        rewrite ?coverage_cons, ?coverage_nil; unfold covers; simpl;
        repeat case_decide; time_cases.
    + time_order.
    + apply Forall_forall. intros [bs' be'] Hin.
      rewrite Forall_forall in Hb, Hbusy.
      specialize (Hb _ Hin). destruct (Hbusy _ Hin) as (? & ? & ?). simpl in *.
      split; [done | ]. split; [done | ]. time_order.
Qed.

Lemma busy_chain busy :
  sorted_by_start busy → pairwise_disjoint busy → Forall proper busy →
  StronglySorted (λ a b, time_le a.2 b.1 ∨ b.1 = b.2) busy.
Proof.
  unfold sorted_by_start, pairwise_disjoint, proper.
  induction busy as [|[as_ ae] busy IH]; intros Hs Hd Hp; [constructor | ].
  apply StronglySorted_inv in Hs as [Hs Hs1].
  apply StronglySorted_inv in Hd as [Hd Hd1].
  apply Forall_cons in Hp as [Hp1 Hp].
  constructor; [by apply IH | ].
  apply Forall_forall. intros [bs be] Hin.
  rewrite Forall_forall in Hs1, Hd1, Hp.
  specialize (Hs1 _ Hin). specialize (Hd1 _ Hin). specialize (Hp _ Hin).
  unfold overlaps in Hd1. simpl in *.
  destruct (decide (time_le ae bs)) as [? | Hn]; [by left | right].
  time_cases.
Qed.

(** C3, as stated, fails: the busy slots of a date are taken as they come,
    so a single busy slot (pairwise disjoint for want of a second one) may
    reach outside the working hours, or end before it starts; free and
    busy slots then cover an instant outside the working hours, or an
    instant twice. *)
Lemma C3_counterexample :
  (_fetch_and_process_data early_data = Ok early_schedule ∧
   early_schedule !! "2024-10-10" = Some (mk_ScheduleData (9:h0, 18:h0) [(8:h0, 10:h0)]) ∧
   get_free_slots early_schedule "2024-10-10" = Ok [(10:h0, 18:h0)] ∧
   get_busy_slots early_schedule "2024-10-10" = Ok [(8:h0, 10:h0)] ∧
   pairwise_disjoint [(8:h0, 10:h0)] ∧
   ¬ tiles (9:h0, 18:h0) ([(10:h0, 18:h0)] ++ [(8:h0, 10:h0)])) ∧
  (_fetch_and_process_data inverted_data = Ok inverted_schedule ∧
   inverted_schedule !! "2024-10-10" = Some (mk_ScheduleData (9:h0, 18:h0) [(12:h0, 10:h0)]) ∧
   get_free_slots inverted_schedule "2024-10-10" = Ok [(9:h0, 12:h0); (10:h0, 18:h0)] ∧
   get_busy_slots inverted_schedule "2024-10-10" = Ok [(12:h0, 10:h0)] ∧
   pairwise_disjoint [(12:h0, 10:h0)] ∧
   ¬ tiles (9:h0, 18:h0) ([(9:h0, 12:h0); (10:h0, 18:h0)] ++ [(12:h0, 10:h0)])).
Proof.
  split.
  - do 4 (split; [vm_compute; reflexivity | ]).
    split; [repeat constructor | ].
    intros Htiles. specialize (Htiles 8:h30). vm_compute in Htiles. discriminate.
  - do 4 (split; [vm_compute; reflexivity | ]).
    split; [repeat constructor | ].
    intros Htiles. specialize (Htiles 11:h0). vm_compute in Htiles. discriminate.
Qed.

(** C3, amended. For a date of a constructed model whose busy slots are
    pairwise disjoint and are intervals within the working hours (start of
    work <= start <= end <= end of work), the intervals of [get_free_slots]
    together with those of [get_busy_slots] tile the working hours: every
    instant of the working hours lies in exactly one of them, and every
    other instant in none. *)
Theorem C3_free_and_busy_tile data self date_str sd :
  _fetch_and_process_data data = Ok self →
  well_formed_date date_str = true →
  self !! date_str = Some sd →
  pairwise_disjoint (busy_slots sd) →
  Forall (within (work_hours sd)) (busy_slots sd) →
  ∃ free busy,
    get_free_slots self date_str = Ok free ∧
    get_busy_slots self date_str = Ok busy ∧
    tiles (work_hours sd) (free ++ busy).
Proof.
  intros Hf Hd Hsd Hdisj Hwithin.
  exists (free_slots_of sd), (busy_slots sd).
  split; [by apply get_free_slots_present | ].
  split; [by apply get_busy_slots_present | ].
  pose proof (fetched_busy_sorted _ _ _ _ Hf Hsd) as Hsorted.
  rewrite free_slots_of_sweep. destruct (work_hours sd) as [ws we]. simpl.
  unfold within in Hwithin. simpl in Hwithin. intros t.
  destruct (decide (time_le ws we)) as [Hle | Hgt].
  - apply sweep_tiles; [done | | ].
    + eapply Forall_impl; [exact Hwithin | ]. intros b (? & ? & ?). auto.
    + apply busy_chain; [done | done | ].
      eapply Forall_impl; [exact Hwithin | ]. intros b (? & ? & ?). done.
  - destruct (busy_slots sd) as [|[bs be] busy].
    + simpl. rewrite decide_False by time_order. rewrite coverage_nil.
      rewrite decide_False; [done | ]. unfold covers. simpl. intros [? ?]. time_cases.
    + apply Forall_cons in Hwithin as [(? & ? & ?) _]. simpl in *. time_cases.
Qed.

Lemma C3_witness :
  ∃ free busy,
    get_free_slots mock_schedule "2024-10-10" = Ok free ∧
    get_busy_slots mock_schedule "2024-10-10" = Ok busy ∧
    tiles (9:h0, 18:h0) (free ++ busy).
Proof.
  assert (Hf : _fetch_and_process_data MOCK_API_DATA = Ok mock_schedule)
    by (vm_compute; reflexivity).
  assert (Hsd : mock_schedule !! "2024-10-10" = Some mock_day_1)
    by (vm_compute; reflexivity).
  apply (C3_free_and_busy_tile MOCK_API_DATA mock_schedule "2024-10-10" mock_day_1
           Hf eq_refl Hsd).
  - repeat constructor; vm_compute; intros [=].
  - repeat constructor; vm_compute; intros [=].
Defined.


(** * Further properties of the code *)

(** ** Parsing and formatting clock times *)

(** X1. A time string that [_parse_time] accepts denotes a time of the
    day: the hour is between 0 and 23 and the minute between 0 and 59. *)
Theorem X1_parse_time_in_range time_str t :
  _parse_time time_str = Ok t → 0 ≤ hour t < 24 ∧ 0 ≤ minute t < 60.
Proof. intros Hp. by apply _parse_time_valid in Hp. Qed.

Lemma X1_witness : 0 ≤ hour 9:h30 < 24 ∧ 0 ≤ minute 9:h30 < 60.
Proof. apply (X1_parse_time_in_range "9:30" 9:h30). reflexivity. Defined.

Lemma parse_format_all :
  Forall (λ h, Forall (λ m, _parse_time (strftime_HM (mk_time h m)) = Ok (mk_time h m))
                      (seqZ 0 60))
         (seqZ 0 24).
Proof. compute_done. Qed.

Lemma parse_format t : valid_time t → _parse_time (strftime_HM t) = Ok t.
Proof.
  destruct t as [h m]. unfold valid_time. simpl. intros [Hh Hm].
  pose proof parse_format_all as Hall.
  rewrite Forall_forall in Hall. specialize (Hall h).
  rewrite Forall_forall in Hall. apply Hall; apply elem_of_seqZ; lia.
Qed.








(** ** What ingestion stores *)

Lemma parsed_Some a b x y :
  parsed a b = Some (x, y) ↔ _parse_time a = Ok x ∧ _parse_time b = Ok y.
Proof.
  unfold parsed, _parse_time.
  destruct (Strptime.strptime_HM a) as [[h1 m1]|],
           (Strptime.strptime_HM b) as [[h2 m2]|];
    split; try (intros [? ?]; congruence); try discriminate.
  - intros [= <- <-]. done.
Qed.

Lemma add_day_Ok p e p1 :
  add_day p e = Ok p1 →
  ∃ wh, parsed (d_start e.2) (d_end e.2) = Some wh ∧
        p1 = <[d_date e.2 := mk_ScheduleData wh []]> p.
Proof.
  unfold add_day.
  destruct (_parse_time (d_start e.2)) as [ws|] eqn:Hs; simpl; [ | discriminate].
  destruct (_parse_time (d_end e.2)) as [we|] eqn:He; simpl; [ | discriminate].
  intros [= <-]. exists (ws, we). split; [by apply parsed_Some | done].
Qed.

(** After the first loop, a date holds the hours of the last day read
    with that date, and no busy slot. *)
Lemma add_days_lookup l p p' date_str :
  for_each add_day l p = Ok p' →
  p' !! date_str
  = match last (omap (λ e : Z * DayRecord,
                        if decide (d_date e.2 = date_str)
                        then parsed (d_start e.2) (d_end e.2) else None) l) with
    | Some wh => Some (mk_ScheduleData wh [])
    | None => p !! date_str
    end.
Proof.
  revert p. induction l as [|e l IH]; intros p; simpl.
  - by intros [= <-].
  - destruct (add_day p e) as [p1|] eqn:He; simpl; [ | discriminate].
    apply add_day_Ok in He as (wh & Hwh & ->). intros Hl%IH. rewrite Hl. clear Hl IH.
    case_decide as Hd.
    + rewrite Hwh. simpl. rewrite last_cons, Hd, lookup_insert_eq.
      by destruct (last _).
    + simpl. by rewrite lookup_insert_ne.
Qed.

Lemma add_slot_Ok days_by_id p slot p1 :
  add_slot days_by_id p slot = Ok p1 →
  match slot_date days_by_id slot with
  | None => p1 = p
  | Some date_str =>
      ∃ b sd, parsed (s_start slot) (s_end slot) = Some b ∧
              p !! date_str = Some sd ∧
              p1 = <[date_str := mk_ScheduleData (work_hours sd) (busy_slots sd ++ [b])]> p
  end.
Proof.
  unfold add_slot, slot_date.
  destruct (od_get (s_day_id slot) days_by_id) as [day_info|]; simpl;
    [ | by intros [= <-]].
  destruct (_parse_time (s_start slot)) as [bs|] eqn:Hs; simpl; [ | discriminate].
  destruct (_parse_time (s_end slot)) as [be|] eqn:He; simpl; [ | discriminate].
  destruct (p !! d_date day_info) as [sd|] eqn:Hsd; simpl; [ | discriminate].
  intros [= <-]. exists (bs, be), sd. split; [by apply parsed_Some | done].
Qed.

(** The second loop appends to each date its timeslots, in the order of
    the payload, and changes nothing else. *)
Lemma add_slots_lookup days_by_id ts p p' date_str :
  for_each (add_slot days_by_id) ts p = Ok p' →
  p' !! date_str
  = (λ sd, mk_ScheduleData (work_hours sd)
             (busy_slots sd ++ slots_of days_by_id date_str ts)) <$> p !! date_str.
Proof.
  revert p. induction ts as [|slot ts IH]; intros p; simpl.
  - intros [= <-]. destruct (p !! date_str) as [[wh busy]|]; simpl; [ | done].
    by rewrite app_nil_r.
  - destruct (add_slot days_by_id p slot) as [p1|] eqn:Hslot; simpl; [ | discriminate].
    apply add_slot_Ok in Hslot. intros Hl%IH. rewrite Hl. clear Hl IH.
    unfold slots_of at 2. simpl. fold (slots_of days_by_id date_str ts).
    destruct (slot_date days_by_id slot) as [d0|]; [ | by subst; rewrite decide_False].
    destruct Hslot as (b & sd & Hb & Hsd & ->).
    destruct (decide (d0 = date_str)) as [-> | Hne].
    + rewrite decide_True by done. rewrite Hb, lookup_insert_eq, Hsd. simpl.
      by rewrite <- app_assoc.
    + rewrite decide_False by congruence. by rewrite lookup_insert_ne.
Qed.

(** The model that ingestion returns, date by date. *)
Lemma fetched_lookup data self date_str :
  _fetch_and_process_data data = Ok self →
  self !! date_str
  = (λ wh, mk_ScheduleData wh
             (sort_by_start
                (slots_of (days_by_id_of (days data)) date_str (timeslots data))))
    <$> hours_of (days_by_id_of (days data)) date_str.
Proof.
  unfold _fetch_and_process_data. set (dbi := days_by_id_of (days data)).
  destruct (for_each add_day dbi ∅) as [p1|] eqn:H1; simpl; [ | discriminate].
  destruct (for_each (add_slot dbi) (timeslots data) p1) as [p2|] eqn:H2; simpl;
    [ | discriminate].
  intros [= <-]. rewrite lookup_fmap.
  rewrite (add_slots_lookup _ _ _ _ date_str H2), (add_days_lookup _ _ _ date_str H1).
  rewrite lookup_empty. unfold hours_of. by destruct (last _).
Qed.

Lemma fetched_days_parse data self :
  _fetch_and_process_data data = Ok self →
  Forall (λ e : Z * DayRecord, day_parses e.2 = true) (days_by_id_of (days data)).
Proof.
  intros Hf.
  destruct (Forall_or_Exists_bool (λ e : Z * DayRecord, day_parses e.2)
              (days_by_id_of (days data))) as [Hdays | Hdays]; [done | ].
  rewrite fetch_Raise in Hf; [discriminate | by left].
Qed.

Lemma day_parses_parsed day_info :
  day_parses day_info = true →
  is_Some (parsed (d_start day_info) (d_end day_info)).
Proof.
  unfold day_parses, parses, parsed. rewrite andb_true_iff. intros [Hs He].
  destruct (Strptime.strptime_HM (d_start day_info)) as [[h1 m1]|]; [ | discriminate].
  destruct (Strptime.strptime_HM (d_end day_info)) as [[h2 m2]|]; [ | discriminate].
  eauto.
Qed.

(** X3. What the constructor stores. The model holds a date exactly when
    it is the date of a day record that is the last one of its identifier;
    it holds for it the parsed working hours of the last such record (in
    the order in which the identifiers first appear) and, as busy slots,
    the parsed timeslots whose [day_id] names a day record of that date,
    taken in the order of the payload and then sorted by start. *)
Theorem X3_ingestion_stores data self :
  _fetch_and_process_data data = Ok self →
  let days_by_id := days_by_id_of (days data) in
  (∀ date_str,
     self !! date_str
     = (λ wh, mk_ScheduleData wh
                (sort_by_start (slots_of days_by_id date_str (timeslots data))))
       <$> hours_of days_by_id date_str) ∧
  (∀ date_str,
     is_Some (self !! date_str) ↔
     ∃ day_info, day_info ∈ days data ∧
                 last (filter (λ x, d_id x = d_id day_info) (days data)) = Some day_info ∧
                 d_date day_info = date_str).
Proof.
  intros Hf days_by_id. subst days_by_id. split.
  - intros date_str. by apply fetched_lookup.
  - intros date_str. rewrite (fetched_lookup _ _ date_str Hf), fmap_is_Some.
    unfold hours_of.
    pose proof (fetched_days_parse _ _ Hf) as Hparse. rewrite Forall_forall in Hparse.
    assert (Hentry : ∀ i d, (i, d) ∈ days_by_id_of (days data)
                            ↔ last (filter (λ x, d_id x = i) (days data)) = Some d).
    { intros i d. rewrite <- days_by_id_get.
      symmetry. apply od_get_elem, days_by_id_NoDup. }
    split.
    + intros [wh Hwh]. apply last_Some in Hwh as [l' Hl'].
      assert (Hin : wh ∈ l' ++ [wh]) by (apply elem_of_app; right; by left).
      rewrite <- Hl' in Hin. apply list_elem_of_omap in Hin as ([i d] & Hin & Hsel).
      simpl in Hsel. case_decide as Hd; [ | discriminate].
      pose proof Hin as Hlast. apply Hentry in Hlast.
      exists d. split; [ | split; [ | done]].
      * apply last_Some in Hlast as [l0 Hl0].
        assert (Hd0 : d ∈ filter (λ x, d_id x = i) (days data))
          by (rewrite Hl0; apply elem_of_app; right; by left).
        by apply list_elem_of_filter in Hd0 as [_ ?].
      * assert (d_id d = i) as ->; [ | done].
        apply last_Some in Hlast as [l0 Hl0].
        assert (Hd0 : d ∈ filter (λ x, d_id x = i) (days data))
          by (rewrite Hl0; apply elem_of_app; right; by left).
        by apply list_elem_of_filter in Hd0 as [? _].
    + intros (d & _ & Hlast & Hdate). apply Hentry in Hlast.
      destruct (day_parses_parsed d (Hparse _ Hlast)) as [wh Hwh].
      destruct (last _) as [wh'|] eqn:Hnone; [eauto | ].
      exfalso. apply last_None in Hnone.
      assert (Hin : wh ∈ omap (λ e : Z * DayRecord,
                                 if decide (d_date e.2 = date_str)
                                 then parsed (d_start e.2) (d_end e.2) else None)
                              (days_by_id_of (days data) : list (Z * DayRecord))).
      { apply list_elem_of_omap. exists (d_id d, d). split; [done | ]. simpl.
        by rewrite decide_True. }
      rewrite Hnone in Hin. by apply elem_of_nil in Hin.
Qed.

Lemma X3_witness :
  schedule_of shared_date_data !! "2024-10-10"
  = Some (mk_ScheduleData (10:h0, 16:h0) [(11:h0, 12:h0); (14:h0, 15:h0)]) ∧
  schedule_of shared_date_data !! "2024-10-11" = None.
Proof.
  assert (Hf : _fetch_and_process_data shared_date_data
               = Ok (schedule_of shared_date_data)) by (vm_compute; reflexivity).
  destruct (X3_ingestion_stores shared_date_data _ Hf) as [Hlookup _].
  split; rewrite Hlookup; vm_compute; reflexivity.
Defined.

(** ** The busy slots of a date *)

Lemma insert_by_start_perm x l : insert_by_start x l ≡ₚ x :: l.
Proof.
  induction l as [|y l IH]; simpl; [done | ].
  case_decide; [ | done]. rewrite IH. apply Permutation_swap.
Qed.

Lemma sort_by_start_perm l : sort_by_start l ≡ₚ l.
Proof.
  induction l as [|x l IH]; simpl; [done | ].
  by rewrite insert_by_start_perm, IH.
Qed.

(** The sort is stable: slots with the same start keep their order. *)
Lemma insert_by_start_stable k x l :
  filter (λ b : TimeTuple, b.1 = k) (insert_by_start x l)
  = filter (λ b : TimeTuple, b.1 = k) (x :: l).
Proof.
  induction l as [|y l IH]; simpl; [done | ].
  case_decide as Hlt; [ | done].
  rewrite filter_cons, IH, !filter_cons.
  destruct (decide (y.1 = k)) as [Hy | Hy], (decide (x.1 = k)) as [Hx | Hx]; try done.
  exfalso. rewrite Hy, Hx in Hlt. by apply (irreflexivity time_lt k).
Qed.

Lemma sort_by_start_stable k l :
  filter (λ b : TimeTuple, b.1 = k) (sort_by_start l)
  = filter (λ b : TimeTuple, b.1 = k) l.
Proof.
  induction l as [|x l IH]; simpl; [done | ].
  by rewrite insert_by_start_stable, !filter_cons, IH.
Qed.

(** X4. On a constructed model [get_busy_slots] returns, for a date of the
    model, the timeslots of that date and nothing else: a rearrangement of
    the parsed timeslots whose [day_id] resolves to the date, in ascending
    order of start, where slots with the same start keep the order of the
    payload. *)
Theorem X4_busy_slots_are_the_timeslots data self date_str :
  _fetch_and_process_data data = Ok self →
  well_formed_date date_str = true →
  is_Some (self !! date_str) →
  let slots := slots_of (days_by_id_of (days data)) date_str (timeslots data) in
  ∃ busy,
    get_busy_slots self date_str = Ok busy ∧
    busy ≡ₚ slots ∧
    sorted_by_start busy ∧
    ∀ k, filter (λ b : TimeTuple, b.1 = k) busy = filter (λ b : TimeTuple, b.1 = k) slots.
Proof.
  intros Hf Hd [sd Hsd] slots. exists (busy_slots sd).
  split; [by apply get_busy_slots_present | ].
  rewrite (fetched_lookup _ _ date_str Hf) in Hsd.
  destruct (hours_of _ _) as [wh|]; simpl in Hsd; [ | discriminate].
  injection Hsd as <-. simpl. fold slots.
  split; [apply sort_by_start_perm | ].
  split; [apply sort_by_start_sorted | ].
  intros k. apply sort_by_start_stable.
Qed.

Lemma X4_witness :
  ∃ busy,
    get_busy_slots (schedule_of ties_data) "2024-10-10" = Ok busy ∧
    busy ≡ₚ [(14:h0, 15:h0); (11:h0, 13:h0); (11:h0, 12:h0)] ∧
    filter (λ b : TimeTuple, b.1 = 11:h0) busy = [(11:h0, 13:h0); (11:h0, 12:h0)].
Proof.
  assert (Hf : _fetch_and_process_data ties_data = Ok (schedule_of ties_data))
    by (vm_compute; reflexivity).
  assert (Hkey : is_Some (schedule_of ties_data !! "2024-10-10"))
    by (vm_compute; eauto).
  destruct (X4_busy_slots_are_the_timeslots ties_data _ "2024-10-10" Hf eq_refl Hkey)
    as (busy & Hbusy & Hperm & _ & Hstable).
  exists busy. split; [exact Hbusy | ]. split; [exact Hperm | ].
  rewrite Hstable. vm_compute. reflexivity.
Defined.

(** ** Free slots against busy slots *)

Section free_against_busy.
Variable workEnd : time.

(** Over busy slots in ascending order of start, no gap of the sweep
    overlaps a busy slot. *)
Lemma sweep_no_overlap busy cur f b :
  sorted_by_start busy →
  f ∈ sweep cur busy workEnd → b ∈ busy → ¬ overlaps f b.
Proof.
  unfold sorted_by_start. intros Hsorted. revert cur.
  induction Hsorted as [|[bs be] busy Hsorted IH Hfirst]; intros cur Hf Hb.
  - by apply elem_of_nil in Hb.
  - simpl in Hf. apply elem_of_app in Hf as [Hf | Hf].
    + case_decide as Hlt; [ | by apply elem_of_nil in Hf].
      apply list_elem_of_singleton in Hf as ->.
      assert (Hle : time_le bs b.1).
      { apply elem_of_cons in Hb as [-> | Hb]; [done | ].
        rewrite Forall_forall in Hfirst. by apply (Hfirst _ Hb). }
      destruct b as [b1 b2]. unfold overlaps. simpl in *. time_cases.
    + apply elem_of_cons in Hb as [-> | Hb]; [ | by eapply IH].
      pose proof (sweep_after_cursor workEnd busy (time_max cur be)) as Hafter.
      rewrite Forall_forall in Hafter. specialize (Hafter _ Hf).
      destruct f as [f1 f2]. unfold overlaps. simpl in *. time_cases.
Qed.

(** From the cursor to the end of the working hours every instant lies in
    a gap of the sweep or in a busy slot. *)
Lemma sweep_covers busy cur t :
  time_le cur t → time_lt t workEnd →
  (∃ f, f ∈ sweep cur busy workEnd ∧ covers t f) ∨ (∃ b, b ∈ busy ∧ covers t b).
Proof.
  revert cur. induction busy as [|[bs be] busy IH]; intros cur Hcur Hend; simpl.
  - left. exists (cur, workEnd). rewrite decide_True by time_order.
    split; [by left | done].
  - destruct (decide (time_lt t bs)) as [Hbefore | Hafter].
    + left. exists (cur, bs). rewrite decide_True by time_order.
      split; [apply elem_of_app; left; by left | done].
    + destruct (decide (time_lt t be)) as [Hin | Hpast].
      * right. exists (bs, be). split; [by left | ]. unfold covers. simpl.
        split; [time_order | done].
      * destruct (IH (time_max cur be)) as [(f & Hf & Ht) | (b & Hb & Ht)];
          [time_order | done | | ].
        -- left. exists f. split; [apply elem_of_app; by right | done].
        -- right. exists b. split; [by right | done].
Qed.

(** With every busy slot starting within the working hours, so does
    every gap end. *)
Lemma sweep_ends_within busy cur :
  Forall (λ b : TimeTuple, time_le b.1 workEnd) busy →
  Forall (λ f : TimeTuple, time_le f.2 workEnd) (sweep cur busy workEnd).
Proof.
  intros Hbusy. revert cur.
  induction Hbusy as [|[bs be] busy Hb Hbusy IH]; intros cur; simpl.
  - case_decide; repeat constructor. simpl. reflexivity.
  - apply Forall_app. split; [ | apply IH].
    case_decide; repeat constructor. done.
Qed.

(** A request that overlaps no busy slot, none of them empty, and that
    starts at or after the cursor, lies within one gap of the sweep. *)
Lemma sweep_contains busy cur s e :
  time_le cur s → time_lt s e → time_le e workEnd →
  Forall nonempty busy →
  Forall (λ b, ¬ overlaps (s, e) b) busy →
  ∃ f, f ∈ sweep cur busy workEnd ∧ inside s e f.
Proof.
  intros Hcur Hse Hend Hne. revert cur Hcur.
  induction Hne as [|[bs be] busy Hb Hne IH]; intros cur Hcur Hno; simpl.
  - exists (cur, workEnd). rewrite decide_True by time_order.
    split; [by left | ]. split; done.
  - apply Forall_cons in Hno as [Hno1 Hno].
    unfold overlaps, nonempty in *. simpl in *.
    destruct (decide (time_le e bs)) as [Hbefore | Hafter].
    + exists (cur, bs). rewrite decide_True by time_order.
      split; [apply elem_of_app; left; by left | ]. split; done.
    + destruct (IH (time_max cur be)) as (f & Hf & Hin);
        [clear IH Hno Hne; time_cases | done | ].
      exists f. split; [apply elem_of_app; by right | done].
Qed.

Lemma sweep_length busy cur :
  (length (sweep cur busy workEnd) ≤ length busy + 1)%nat.
Proof.
  revert cur. induction busy as [|[bs be] busy IH]; intros cur; simpl.
  - case_decide as Hlt; clear Hlt; simpl; lia.
  - rewrite length_app. specialize (IH (time_max cur be)).
    destruct (decide (time_lt cur bs)) as [Hlt | Hlt]; clear Hlt.
    + change (S (length (sweep (time_max cur be) busy workEnd))
              ≤ S (length busy + 1))%nat. lia.
    + change (length (sweep (time_max cur be) busy workEnd)
              ≤ S (length busy + 1))%nat. lia.
Qed.
End free_against_busy.

Lemma valid_slot_span f :
  valid_slot f → time_lt f.1 f.2 → 0 < span_minutes f < 1440.
Proof.
  destruct f as [s e]. unfold valid_slot, valid_time, span_minutes. simpl.
  rewrite time_lt_iff. lia.
Qed.

(** X5. Every slot that [get_busy_slots] and [get_free_slots] return on a
    constructed model has times of the day at both ends, and every free
    slot lasts at least one minute and less than a day. *)
Theorem X5_returned_slots_are_times_of_day data self date_str :
  _fetch_and_process_data data = Ok self →
  well_formed_date date_str = true →
  ∃ busy free,
    get_busy_slots self date_str = Ok busy ∧
    get_free_slots self date_str = Ok free ∧
    Forall valid_slot busy ∧
    Forall valid_slot free ∧
    Forall (λ f, 0 < span_minutes f < 1440) free.
Proof.
  intros Hf Hd. pose proof (fetched_valid _ _ Hf) as Hmodel.
  destruct (self !! date_str) as [sd|] eqn:Hsd.
  - exists (busy_slots sd), (free_slots_of sd).
    split; [by apply get_busy_slots_present | ].
    split; [by apply get_free_slots_present | ].
    destruct (Hmodel _ _ Hsd) as [Hw Hb]. split; [done | ].
    pose proof (free_slots_valid sd (Hmodel _ _ Hsd)) as Hfree.
    split; [done | ].
    pose proof (sweep_positive (work_hours sd).2 (busy_slots sd) (work_hours sd).1)
      as Hpos.
    rewrite <- free_slots_of_sweep in Hpos.
    rewrite Forall_forall in Hfree, Hpos. apply Forall_forall. intros f Hin.
    apply valid_slot_span; auto.
  - exists [], []. unfold get_busy_slots, get_free_slots.
    rewrite (_get_day_schedule_valid _ _ Hd), Hsd.
    repeat split; constructor.
Qed.

Lemma X5_witness :
  ∃ busy free,
    get_busy_slots mock_schedule "2024-10-11" = Ok busy ∧
    get_free_slots mock_schedule "2024-10-11" = Ok free ∧
    Forall valid_slot busy ∧ Forall valid_slot free.
Proof.
  assert (Hf : _fetch_and_process_data MOCK_API_DATA = Ok mock_schedule)
    by (vm_compute; reflexivity).
  destruct (X5_returned_slots_are_times_of_day MOCK_API_DATA mock_schedule
              "2024-10-11" Hf eq_refl) as (busy & free & Hb & Hfr & Hvb & Hvf & _).
  exists busy, free.
  split; [exact Hb | ]. split; [exact Hfr | ]. split; [exact Hvb | exact Hvf].
Defined.

(** X6. On a constructed model no free slot of a date overlaps a busy
    slot of that date (under the open-interval test of
    [is_slot_available]), whatever the busy slots are; and there is at most
    one free slot more than there are busy slots. *)
Theorem X6_free_slots_avoid_busy_slots data self date_str :
  _fetch_and_process_data data = Ok self →
  well_formed_date date_str = true →
  ∃ busy free,
    get_busy_slots self date_str = Ok busy ∧
    get_free_slots self date_str = Ok free ∧
    (∀ f b, f ∈ free → b ∈ busy → ¬ overlaps f b) ∧
    (length free ≤ length busy + 1)%nat.
Proof.
  intros Hf Hd. destruct (self !! date_str) as [sd|] eqn:Hsd.
  - exists (busy_slots sd), (free_slots_of sd).
    split; [by apply get_busy_slots_present | ].
    split; [by apply get_free_slots_present | ].
    rewrite free_slots_of_sweep. split; [ | apply sweep_length].
    intros f b Hin Hb. eapply sweep_no_overlap; [ | exact Hin | exact Hb].
    by eapply fetched_busy_sorted.
  - exists [], []. unfold get_busy_slots, get_free_slots.
    rewrite (_get_day_schedule_valid _ _ Hd), Hsd.
    split; [done | ]. split; [done | ]. split; [ | simpl; lia].
    intros f b []%elem_of_nil.
Qed.

Lemma X6_witness :
  ∃ busy free,
    get_busy_slots (schedule_of tangled_data) "2024-10-10" = Ok busy ∧
    get_free_slots (schedule_of tangled_data) "2024-10-10" = Ok free ∧
    (∀ f b, f ∈ free → b ∈ busy → ¬ overlaps f b).
Proof.
  assert (Hf : _fetch_and_process_data tangled_data = Ok (schedule_of tangled_data))
    by (vm_compute; reflexivity).
  destruct (X6_free_slots_avoid_busy_slots tangled_data _ "2024-10-10" Hf eq_refl)
    as (busy & free & Hb & Hfr & Hno & _).
  exists busy, free. split; [exact Hb | ]. split; [exact Hfr | exact Hno].
Defined.

Lemma covers_both_overlap t (f b : TimeTuple) : covers t f → covers t b → overlaps f b.
Proof.
  destruct f as [f1 f2], b as [b1 b2]. unfold covers, overlaps. simpl.
  intros [? ?] [? ?]. time_cases.
Qed.

(** X7. On a constructed model, for a date whose busy slots all start no
    later than the working hours end, an instant lies in a free slot
    exactly when it lies in the working hours and in no busy slot: the
    free slots are what the busy slots leave of the working hours, also
    when busy slots overlap, are nested or begin before the working
    hours. *)
Theorem X7_free_is_work_minus_busy data self date_str sd :
  _fetch_and_process_data data = Ok self →
  well_formed_date date_str = true →
  self !! date_str = Some sd →
  Forall (λ b : TimeTuple, time_le b.1 (work_hours sd).2) (busy_slots sd) →
  ∃ free,
    get_free_slots self date_str = Ok free ∧
    ∀ t, (∃ f, f ∈ free ∧ covers t f)
         ↔ covers t (work_hours sd) ∧ ∀ b, b ∈ busy_slots sd → ¬ covers t b.
Proof.
  intros Hf Hd Hsd Hstart. exists (free_slots_of sd).
  split; [by apply get_free_slots_present | ].
  pose proof (fetched_busy_sorted _ _ _ _ Hf Hsd) as Hsorted.
  rewrite free_slots_of_sweep. destruct (work_hours sd) as [ws we]. simpl in *.
  intros t. split.
  - intros (f & Hin & Ht). split.
    + pose proof (sweep_after_cursor we (busy_slots sd) ws) as Hafter.
      pose proof (sweep_ends_within we (busy_slots sd) ws Hstart) as Hwithin.
      rewrite Forall_forall in Hafter, Hwithin.
      specialize (Hafter _ Hin). specialize (Hwithin _ Hin).
      destruct f as [f1 f2]. unfold covers in *. simpl in *.
      clear Hstart Hsorted Hin. time_order.
    + intros b Hb Hcov.
      apply (sweep_no_overlap we (busy_slots sd) ws f b Hsorted Hin Hb).
      by eapply covers_both_overlap.
  - intros [[Hws Hwe] Hfree]. simpl in *.
    destruct (sweep_covers we (busy_slots sd) ws t Hws Hwe)
      as [Hgap | (b & Hb & Hcov)]; [done | ].
    by destruct (Hfree b Hb).
Qed.

Lemma X7_witness :
  ∃ free,
    get_free_slots (schedule_of tangled_data) "2024-10-10" = Ok free ∧
    (∃ f, f ∈ free ∧ covers 13:h0 f) ∧
    ¬ (∃ f, f ∈ free ∧ covers 11:h30 f).
Proof.
  assert (Hf : _fetch_and_process_data tangled_data = Ok (schedule_of tangled_data))
    by (vm_compute; reflexivity).
  assert (Hsd : schedule_of tangled_data !! "2024-10-10"
                = Some (mk_ScheduleData (9:h0, 18:h0)
                          [(10:h0, 12:h0); (11:h0, 10:h30); (17:h0, 19:h0)]))
    by (vm_compute; reflexivity).
  destruct (X7_free_is_work_minus_busy tangled_data _ "2024-10-10" _ Hf eq_refl Hsd)
    as (free & Hfree & Hiff).
  { repeat constructor; vm_compute; discriminate. }
  exists free. split; [exact Hfree | ]. split.
  - apply Hiff. split; [split; vm_compute; congruence | ].
    intros b Hb [H1 H2]. simpl in Hb.
    repeat (apply elem_of_cons in Hb as [-> | Hb]; [vm_compute in H1, H2; congruence | ]).
    by apply elem_of_nil in Hb.
  - intros Hex. apply Hiff in Hex as [_ Hno].
    apply (Hno (10:h0, 12:h0)); [by left | ]. split; vm_compute; congruence.
Defined.

(** ** Availability against the free slots *)

Lemma overlaps_inside s e (f b : TimeTuple) :
  inside s e f → overlaps (s, e) b → overlaps f b.
Proof.
  destruct f as [f1 f2], b as [b1 b2]. unfold inside, overlaps. simpl.
  intros [? ?] ?. time_cases.
Qed.

Lemma is_slot_available_true self date_str start_str end_str cs ce :
  _parse_time start_str = Ok cs → _parse_time end_str = Ok ce →
  is_slot_available self date_str start_str end_str = Ok true ↔
  time_lt cs ce ∧ well_formed_date date_str = true ∧
  ∃ sd, self !! date_str = Some sd ∧
        time_le (work_hours sd).1 cs ∧ time_le ce (work_hours sd).2 ∧
        Forall (λ b, ¬ overlaps (cs, ce) b) (busy_slots sd).
Proof.
  intros Hs He. rewrite (is_slot_available_parsed _ _ _ _ _ _ Hs He).
  destruct (decide (time_ge cs ce)) as [Hge | Hlt].
  { split; [discriminate | ]. intros [? _]. time_order. }
  destruct (well_formed_date date_str).
  2:{ split; [discriminate | ]. intros (_ & ? & _). discriminate. }
  destruct (self !! date_str) as [sd|].
  2:{ split; [discriminate | ]. intros (_ & _ & sd & ? & _). discriminate. }
  split.
  - intros [= Hb]. rewrite !andb_true_iff, !bool_decide_eq_true in Hb.
    destruct Hb as [[? ?] Hno%no_busy_overlap_Forall].
    split; [time_order | ]. split; [done | ]. exists sd. done.
  - intros (_ & _ & sd' & [= <-] & ? & ? & Hno). f_equal.
    rewrite !andb_true_iff, !bool_decide_eq_true, no_busy_overlap_Forall. done.
Qed.

(** X8. On a constructed model whose busy slots of the date are not empty
    (start before end), a request with start before end is available
    exactly when it ends within the working hours and lies within one of
    the free slots that [get_free_slots] returns. *)
Theorem X8_available_iff_inside_a_free_slot
    data self date_str sd start_str end_str cs ce :
  _fetch_and_process_data data = Ok self →
  well_formed_date date_str = true →
  self !! date_str = Some sd →
  Forall nonempty (busy_slots sd) →
  _parse_time start_str = Ok cs → _parse_time end_str = Ok ce →
  time_lt cs ce →
  ∃ free,
    get_free_slots self date_str = Ok free ∧
    (is_slot_available self date_str start_str end_str = Ok true ↔
     time_le ce (work_hours sd).2 ∧ ∃ f, f ∈ free ∧ inside cs ce f).
Proof.
  intros Hf Hd Hsd Hne Hs He Hlt. exists (free_slots_of sd).
  split; [by apply get_free_slots_present | ].
  rewrite (is_slot_available_true _ _ _ _ _ _ Hs He), free_slots_of_sweep.
  pose proof (fetched_busy_sorted _ _ _ _ Hf Hsd) as Hsorted.
  split.
  - intros (_ & _ & sd' & Hsd' & Hws & Hwe & Hno).
    rewrite Hsd in Hsd'. injection Hsd' as <-.
    split; [done | ]. by apply sweep_contains.
  - intros (Hwe & f & Hin & Hinside).
    split; [done | ]. split; [done | ]. exists sd. split; [done | ].
    pose proof (sweep_after_cursor _ _ _ : Forall _ (sweep (work_hours sd).1
                  (busy_slots sd) (work_hours sd).2)) as Hafter.
    rewrite Forall_forall in Hafter. specialize (Hafter _ Hin).
    split; [destruct Hinside; by etrans | ]. split; [done | ].
    apply Forall_forall. intros b Hb Hov.
    apply (sweep_no_overlap _ _ _ f b Hsorted Hin Hb).
    by eapply overlaps_inside.
Qed.

(** With an empty busy slot the request 10:00 to 13:00 is available and yet
    in no single free slot: the hypothesis of X8 on the busy slots is
    needed. *)
Example available_across_an_empty_slot :
  is_slot_available (schedule_of empty_slot_data) "2024-10-10" "10:00" "13:00" = Ok true ∧
  get_free_slots (schedule_of empty_slot_data) "2024-10-10"
  = Ok [(9:h0, 12:h0); (12:h0, 18:h0)].
Proof. split; vm_compute; reflexivity. Qed.

Lemma X8_witness :
  is_slot_available mock_schedule "2024-10-10" "12:30" "14:00" = Ok true.
Proof.
  assert (Hf : _fetch_and_process_data MOCK_API_DATA = Ok mock_schedule)
    by (vm_compute; reflexivity).
  assert (Hsd : mock_schedule !! "2024-10-10" = Some mock_day_1)
    by (vm_compute; reflexivity).
  assert (Hne : Forall nonempty (busy_slots mock_day_1))
    by (repeat constructor).
  assert (Hlt : time_lt 12:h30 14:h0) by reflexivity.
  destruct (X8_available_iff_inside_a_free_slot MOCK_API_DATA mock_schedule
              "2024-10-10" mock_day_1 "12:30" "14:00" 12:h30 14:h0
              Hf eq_refl Hsd Hne eq_refl eq_refl Hlt) as (free & Hfree & Hiff).
  apply Hiff. split; [vm_compute; discriminate | ].
  rewrite (get_free_slots_present mock_schedule "2024-10-10" mock_day_1 eq_refl Hsd)
    in Hfree.
  injection Hfree as <-. exists (12:h0, 15:h0).
  split; [vm_compute; right; left | split; vm_compute; discriminate].
Defined.

(** X9. Shrinking keeps availability: when a request is available, so is
    every request with start before end that lies within it, on any
    model. *)
Theorem X9_available_within_available
    self date_str start_str end_str start_str' end_str' cs ce cs' ce' :
  _parse_time start_str = Ok cs → _parse_time end_str = Ok ce →
  _parse_time start_str' = Ok cs' → _parse_time end_str' = Ok ce' →
  time_le cs cs' → time_lt cs' ce' → time_le ce' ce →
  is_slot_available self date_str start_str end_str = Ok true →
  is_slot_available self date_str start_str' end_str' = Ok true.
Proof.
  intros Hs He Hs' He' H1 H2 H3.
  rewrite (is_slot_available_true _ _ _ _ _ _ Hs He),
          (is_slot_available_true _ _ _ _ _ _ Hs' He').
  intros (_ & Hd & sd & Hsd & Hws & Hwe & Hno).
  split; [done | ]. split; [done | ]. exists sd. split; [done | ].
  split; [by etrans | ]. split; [by etrans | ].
  eapply Forall_impl; [exact Hno | ]. intros b Hb Hov. apply Hb.
  change (overlaps ((cs, ce) : TimeTuple) b).
  eapply overlaps_inside; [ | exact Hov]. split; done.
Qed.

Lemma X9_witness :
  is_slot_available mock_schedule "2024-10-10" "12:30" "14:00" = Ok true.
Proof.
  apply (X9_available_within_available mock_schedule "2024-10-10"
           "12:00" "15:00" "12:30" "14:00" 12:h0 15:h0 12:h30 14:h0);
    try reflexivity; vm_compute; try discriminate; reflexivity.
Defined.

Lemma free_slot_available data self date_str sd f :
  _fetch_and_process_data data = Ok self →
  well_formed_date date_str = true →
  self !! date_str = Some sd →
  Forall (λ b : TimeTuple, time_le b.1 (work_hours sd).2) (busy_slots sd) →
  f ∈ free_slots_of sd →
  is_slot_available self date_str (strftime_HM f.1) (strftime_HM f.2) = Ok true.
Proof.
  intros Hf Hd Hsd Hstart Hin.
  pose proof (free_slots_valid sd (fetched_valid _ _ Hf _ _ Hsd)) as Hvalid.
  rewrite Forall_forall in Hvalid. destruct (Hvalid _ Hin) as [Hv1 Hv2].
  rewrite (is_slot_available_true _ _ _ _ f.1 f.2) by (by apply parse_format).
  rewrite free_slots_of_sweep in Hin.
  pose proof (sweep_positive (work_hours sd).2 (busy_slots sd) (work_hours sd).1) as Hpos.
  pose proof (sweep_after_cursor (work_hours sd).2 (busy_slots sd) (work_hours sd).1)
    as Hafter.
  pose proof (sweep_ends_within (work_hours sd).2 (busy_slots sd) (work_hours sd).1
                Hstart) as Hwithin.
  rewrite Forall_forall in Hpos, Hafter, Hwithin.
  split; [by apply Hpos | ]. split; [done | ]. exists sd. split; [done | ].
  split; [by apply Hafter | ]. split; [by apply Hwithin | ].
  apply Forall_forall. intros b Hb. rewrite <- surjective_pairing.
  eapply sweep_no_overlap; [ | exact Hin | exact Hb].
  by eapply fetched_busy_sorted.
Qed.

(** X10. What [get_free_slots] offers, [is_slot_available] accepts: on a
    constructed model, for a date whose busy slots all start no later than
    the working hours end, every free slot returned, printed with
    [strftime('%H:%M')] as the demonstration does, is reported available. *)
Theorem X10_free_slots_are_available data self date_str sd :
  _fetch_and_process_data data = Ok self →
  well_formed_date date_str = true →
  self !! date_str = Some sd →
  Forall (λ b : TimeTuple, time_le b.1 (work_hours sd).2) (busy_slots sd) →
  ∃ free,
    get_free_slots self date_str = Ok free ∧
    ∀ f, f ∈ free →
         is_slot_available self date_str (strftime_HM f.1) (strftime_HM f.2) = Ok true.
Proof.
  intros Hf Hd Hsd Hstart. exists (free_slots_of sd).
  split; [by apply get_free_slots_present | ].
  intros f Hin. by eapply free_slot_available.
Qed.

(** With a busy slot after the working hours the free slot 09:00 to 19:00
    is returned and is not available: the hypothesis of X10 on the busy
    slots is needed. *)
Example free_slot_past_the_working_hours :
  get_free_slots (schedule_of late_data) "2024-10-10" = Ok [(9:h0, 19:h0)] ∧
  is_slot_available (schedule_of late_data) "2024-10-10" "09:00" "19:00" = Ok false.
Proof. split; vm_compute; reflexivity. Qed.

Lemma X10_witness :
  is_slot_available mock_schedule "2024-10-10" "15:30" "18:00" = Ok true.
Proof.
  assert (Hf : _fetch_and_process_data MOCK_API_DATA = Ok mock_schedule)
    by (vm_compute; reflexivity).
  assert (Hsd : mock_schedule !! "2024-10-10" = Some mock_day_1)
    by (vm_compute; reflexivity).
  destruct (X10_free_slots_are_available MOCK_API_DATA mock_schedule "2024-10-10"
              mock_day_1 Hf eq_refl Hsd) as (free & Hfree & Havailable).
  { repeat constructor; vm_compute; discriminate. }
  rewrite (get_free_slots_present mock_schedule "2024-10-10" mock_day_1 eq_refl Hsd)
    in Hfree.
  injection Hfree as <-.
  apply (Havailable (15:h30, 18:h0)). vm_compute. right. right. left.
Defined.

(** ** The search, as the duration varies *)

Lemma find_found self n :
  valid_model self →
  0 < n ≤ max_timedelta_minutes →
  map_Forall (λ k _, well_formed_date k = true) self →
  find_available_slots_for_duration self n = Ok (found self n (sorted_keys self)).
Proof.
  intros Hmodel Hn Hkeys. unfold find_available_slots_for_duration.
  rewrite decide_False by lia.
  destruct (timedelta_minutes_Ok n Hn) as [req Hreq]. rewrite Hreq. simpl.
  rewrite (outer_loop self n req Hreq (sorted_keys self) []); [done | done | | ].
  - apply sorted_keys_NoDup.
  - apply Forall_forall. intros k [sd Hsd]%sorted_keys_elem.
    split; [by apply (Hkeys _ _ Hsd) | apply not_elem_of_nil].
Qed.

Lemma found_get self n k l :
  od_get k (found self n (sorted_keys self)) = Some l
  ↔ is_Some (self !! k) ∧ l = filter (long_enough n) (free_of self k) ∧ l ≠ [].
Proof.
  rewrite od_get_elem.
  2:{ eapply StronglySorted_NoDup_strict, found_keys_sorted, sorted_keys_ascending. }
  by rewrite found_elem, sorted_keys_elem.
Qed.




Lemma found_nothing self n keys :
  valid_model self → 1440 ≤ n → found self n keys = [].
Proof.
  intros Hmodel Hn. unfold found. induction keys as [|k keys IH]; [done | ].
  simpl. rewrite IH, app_nil_r.
  assert (filter (long_enough n) (free_of self k) = []) as ->; [ | done].
  unfold free_of. destruct (self !! k) as [sd|] eqn:Hsd; [ | done].
  pose proof (free_slots_valid sd (Hmodel _ _ Hsd)) as Hvalid.
  induction Hvalid as [|f l Hv Hvalid IHl]; [done | ].
  rewrite filter_cons, IHl. rewrite decide_False; [done | ].
  destruct f as [s e]. destruct Hv as [Hs He].
  unfold long_enough, span_minutes, valid_time in *. simpl in *. lia.
Qed.

(** X12. No slot lasts a day: on a constructed model whose keys are
    well-formed dates, a search for 1440 minutes or more (up to the bound
    of [timedelta]) returns the empty dictionary. *)
Theorem X12_a_day_or_more_finds_nothing data self n :
  _fetch_and_process_data data = Ok self →
  map_Forall (λ k _, well_formed_date k = true) self →
  1440 ≤ n → n ≤ max_timedelta_minutes →
  find_available_slots_for_duration self n = Ok [].
Proof.
  intros Hf Hkeys Hn Hmax. pose proof (fetched_valid _ _ Hf) as Hmodel.
  rewrite find_found by (done || lia). by rewrite found_nothing.
Qed.

Lemma X12_witness :
  find_available_slots_for_duration (schedule_of whole_day_data) 1439
  = Ok [("2024-10-10", [(0:h0, 23:h59)])] ∧
  find_available_slots_for_duration (schedule_of whole_day_data) 1440 = Ok [].
Proof.
  assert (Hf : _fetch_and_process_data whole_day_data = Ok (schedule_of whole_day_data))
    by (vm_compute; reflexivity).
  split; [vm_compute; reflexivity | ].
  apply (X12_a_day_or_more_finds_nothing whole_day_data _ 1440 Hf).
  - compute_done.
  - lia.
  - unfold max_timedelta_minutes. lia.
Defined.

(** ** The order of the timeslots in the payload *)

Lemma NoDup_fst_eq {A B} (l : list (A * B)) x y :
  NoDup l.*1 → x ∈ l → y ∈ l → x.1 = y.1 → x = y.
Proof.
  induction l as [|z l IH]; [by intros _ []%elem_of_nil | ].
  rewrite fmap_cons, NoDup_cons. intros [Hz Hnd] Hx Hy Heq.
  apply elem_of_cons in Hx as [-> | Hx], Hy as [-> | Hy]; [done | | | by apply IH].
  - exfalso. apply Hz. rewrite Heq. by apply list_elem_of_fmap_2.
  - exfalso. apply Hz. rewrite <- Heq. by apply list_elem_of_fmap_2.
Qed.

(** Slots with pairwise distinct starts are sorted to the same list in
    whatever order they come. *)
Lemma sort_by_start_order l1 l2 :
  l1 ≡ₚ l2 → NoDup l1.*1 → sort_by_start l1 = sort_by_start l2.
Proof.
  intros Hperm Hnd.
  apply (StronglySorted_unique_strong (λ a b : TimeTuple, time_le a.1 b.1)).
  - intros x y Hx Hy Hxy Hyx.
    rewrite sort_by_start_perm in Hx. rewrite sort_by_start_perm, <- Hperm in Hy.
    apply (NoDup_fst_eq l1); [done | done | done | ].
    rewrite time_le_iff in Hxy, Hyx. apply time_eq_iff. lia.
  - apply sort_by_start_sorted.
  - apply sort_by_start_sorted.
  - by rewrite !sort_by_start_perm.
Qed.

Lemma fetched_slots_accepted data self :
  _fetch_and_process_data data = Ok self →
  Forall (λ slot, slot_accepted (days_by_id_of (days data)) slot = true) (timeslots data).
Proof.
  intros Hf.
  destruct (Forall_or_Exists_bool (slot_accepted (days_by_id_of (days data)))
              (timeslots data)) as [Hslots | Hslots]; [done | ].
  rewrite fetch_Raise in Hf; [discriminate | by right].
Qed.

(** X13. The order of the timeslots in the payload matters between slots
    of one date with the same start only: when the timeslots of every
    date have pairwise distinct starts, a payload with the same days and
    the same timeslots in another order gives the same model. *)
Theorem X13_order_of_timeslots data ts' self :
  _fetch_and_process_data data = Ok self →
  ts' ≡ₚ timeslots data →
  (∀ date_str,
     NoDup (slots_of (days_by_id_of (days data)) date_str (timeslots data)).*1) →
  _fetch_and_process_data (mk_Data (days data) ts') = Ok self.
Proof.
  intros Hf Hperm Hdistinct.
  destruct (fetch_Ok (mk_Data (days data) ts')) as (self' & Hf' & _).
  { simpl. by eapply fetched_days_parse. }
  { simpl. rewrite Hperm. by eapply fetched_slots_accepted. }
  rewrite Hf'. f_equal. apply map_eq. intros date_str.
  rewrite (fetched_lookup _ _ date_str Hf), (fetched_lookup _ _ date_str Hf'). simpl.
  destruct (hours_of _ _) as [wh|]; simpl; [ | done].
  do 2 f_equal. symmetry. apply sort_by_start_order; [ | done].
  unfold slots_of. by rewrite Hperm.
Qed.

Lemma X13_witness :
  _fetch_and_process_data
    (mk_Data (days MOCK_API_DATA)
       [ mk_SlotRecord 3 2 "09:30" "16:00";
         mk_SlotRecord 2 1 "15:00" "15:30";
         mk_SlotRecord 1 1 "11:00" "12:00" ])
  = Ok mock_schedule.
Proof.
  assert (Hf : _fetch_and_process_data MOCK_API_DATA = Ok mock_schedule)
    by (vm_compute; reflexivity).
  apply (X13_order_of_timeslots MOCK_API_DATA _ mock_schedule Hf).
  - simpl. apply (reverse_Permutation
                    [ mk_SlotRecord 1 1 "11:00" "12:00";
                      mk_SlotRecord 2 1 "15:00" "15:30";
                      mk_SlotRecord 3 2 "09:30" "16:00" ]).
  - intros date_str. unfold slots_of. simpl. unfold slot_date. simpl.
    repeat case_decide; vm_compute; repeat constructor;
      rewrite ?elem_of_cons, ?elem_of_nil; intros Hin;
      repeat destruct Hin as [Hin | Hin]; try discriminate; done.
Defined.


(** X14. What the search returns can be booked: on a constructed model
    whose keys are well-formed dates and whose busy slots all start no
    later than the working hours of their date end, every slot listed for
    a date lasts at least the duration asked for and, printed with
    [strftime('%H:%M')], is reported available on that date. *)
Theorem X14_found_slots_are_available data self n :
  _fetch_and_process_data data = Ok self →
  map_Forall (λ k _, well_formed_date k = true) self →
  map_Forall (λ _ sd, Forall (λ b : TimeTuple, time_le b.1 (work_hours sd).2)
                             (busy_slots sd)) self →
  0 < n ≤ max_timedelta_minutes →
  ∃ res,
    find_available_slots_for_duration self n = Ok res ∧
    ∀ k l f, od_get k res = Some l → f ∈ l →
             n ≤ span_minutes f ∧
             is_slot_available self k (strftime_HM f.1) (strftime_HM f.2) = Ok true.
Proof.
  intros Hf Hkeys Hstart Hn. pose proof (fetched_valid _ _ Hf) as Hmodel.
  exists (found self n (sorted_keys self)).
  split; [by apply find_found | ].
  intros k l f ([sd Hsd] & -> & _)%found_get Hin.
  apply list_elem_of_filter in Hin as [Hlong Hin]. split; [done | ].
  unfold free_of in Hin. rewrite Hsd in Hin.
  eapply free_slot_available; [done | by apply (Hkeys _ _ Hsd) | done | | done].
  by apply (Hstart _ _ Hsd).
Qed.

Lemma X14_witness :
  ∃ res,
    find_available_slots_for_duration mock_schedule 90 = Ok res ∧
    ∀ k l f, od_get k res = Some l → f ∈ l →
             90 ≤ span_minutes f ∧
             is_slot_available mock_schedule k (strftime_HM f.1) (strftime_HM f.2)
             = Ok true.
Proof.
  assert (Hf : _fetch_and_process_data MOCK_API_DATA = Ok mock_schedule)
    by (vm_compute; reflexivity).
  apply (X14_found_slots_are_available MOCK_API_DATA mock_schedule 90 Hf).
  - compute_done.
  - compute_done.
  - unfold max_timedelta_minutes. lia.
Defined.

(** ** A day without timeslots *)

Lemma slots_of_none days_by_id date_str ts :
  Forall (λ slot, slot_date days_by_id slot ≠ Some date_str) ts →
  slots_of days_by_id date_str ts = [].
Proof.
  unfold slots_of. induction 1 as [|slot ts Hslot Hts IH]; [done | ].
  simpl. destruct (decide _) as [Heq|_]; [by destruct Hslot | exact IH].
Qed.

(** X15. A date of a constructed model that no timeslot of the payload
    belongs to (through its [day_id]) has no busy slot, and its free slots
    are the working hours in one piece, or nothing when the working hours
    do not start before they end. *)
Theorem X15_day_without_timeslots data self date_str sd :
  _fetch_and_process_data data = Ok self →
  well_formed_date date_str = true →
  self !! date_str = Some sd →
  Forall (λ slot, slot_date (days_by_id_of (days data)) slot ≠ Some date_str)
         (timeslots data) →
  get_busy_slots self date_str = Ok [] ∧
  get_free_slots self date_str
  = Ok (if decide (time_lt (work_hours sd).1 (work_hours sd).2)
        then [work_hours sd] else []).
Proof.
  intros Hf Hd Hsd Hnone.
  rewrite (get_busy_slots_present _ _ _ Hd Hsd), (get_free_slots_present _ _ _ Hd Hsd).
  rewrite free_slots_of_sweep.
  pose proof Hsd as Hlookup. rewrite (fetched_lookup _ _ date_str Hf) in Hlookup.
  destruct (hours_of _ _) as [wh|]; simpl in Hlookup; [ | discriminate].
  injection Hlookup as <-. simpl. rewrite (slots_of_none _ _ _ Hnone). simpl.
  split; [done | ]. by destruct wh.
Qed.

Lemma X15_witness :
  get_busy_slots (schedule_of orphan_data) "2024-10-10" = Ok [] ∧
  get_free_slots (schedule_of orphan_data) "2024-10-10" = Ok [(9:h0, 18:h0)].
Proof.
  assert (Hf : _fetch_and_process_data orphan_data = Ok (schedule_of orphan_data))
    by (vm_compute; reflexivity).
  assert (Hsd : schedule_of orphan_data !! "2024-10-10"
                = Some (mk_ScheduleData (9:h0, 18:h0) []))
    by (vm_compute; reflexivity).
  apply (X15_day_without_timeslots orphan_data _ "2024-10-10" _ Hf eq_refl Hsd).
  repeat constructor. vm_compute. discriminate.
Defined.
